(** * download_inaturalist_images: a shallow embedding and its properties

    The script reads [observations.csv], asks the iNaturalist API for every
    observation, derives a name for every photo, builds the metadata table
    and downloads the images.  The embedding below follows the script
    statement by statement.

    - Python [str] values are lists of Unicode code points ([pystr]),
      because [retrieve_image_letter] works with [ord] and [chr].
    - JSON scalars are [pyval]; floats and nested containers inside a
      photo object are outside the model.
    - A photo record is a Python [dict]: an association list with unique
      keys in insertion order ([pydict]).
    - The module-level [collector_numbers] dictionary is a [gmap].
    - Exceptions, the console, the network and the file store are explicit:
      a computation is a function from the state to an outcome and a state,
      so that what happened before an exception stays visible. *)

From Stdlib Require Import ZArith Ascii String.
From stdpp Require Import base option list gmap strings pretty.

Local Open Scope Z_scope.

(** ** Python strings *)

Module Py.

Definition pystr := list Z.

(** A literal of the script: the code points of an ASCII text. *)
Definition str (s : string) : pystr :=
  (fun a => Z.of_N (N_of_ascii a)) <$> list_ascii_of_string s.

(** [s.startswith(p)] *)
Fixpoint startswith (p s : pystr) : bool :=
  match p, s with
  | [], _ => true
  | _ :: _, [] => false
  | a :: p', b :: s' => bool_decide (a = b) && startswith p' s'
  end.

(** [str.replace(old, new)]: every occurrence of [old], found from left to
    right without overlap, becomes [new].  [skip] counts the characters of
    a match that are still to be dropped.  With an empty [old], Python puts
    [new] before every character and at the end. *)
Fixpoint replace_from (old new : pystr) (skip : nat) (s : pystr) : pystr :=
  match s with
  | [] => []
  | c :: s' =>
      match skip with
      | S k => replace_from old new k s'
      | O =>
          if startswith old s
          then new ++ replace_from old new (Nat.pred (length old)) s'
          else c :: replace_from old new O s'
      end
  end.

Definition replace (old new s : pystr) : pystr :=
  match old with
  | [] => new ++ concat ((fun c => c :: new) <$> s)
  | _ :: _ => replace_from old new O s
  end.

(** The reading with a single replacement, as [str.replace(old, new, 1)]
    would do it: only the leftmost occurrence changes. *)
Fixpoint replace_first (old new s : pystr) : pystr :=
  match s with
  | [] => match old with [] => new | _ :: _ => [] end
  | c :: s' =>
      if startswith old s
      then new ++ drop (length old) s
      else c :: replace_first old new s'
  end.

(** Number of (left to right, non-overlapping) occurrences of [old]. *)
Fixpoint count_from (old : pystr) (skip : nat) (s : pystr) : nat :=
  match s with
  | [] => O
  | c :: s' =>
      match skip with
      | S k => count_from old k s'
      | O =>
          if startswith old s
          then S (count_from old (Nat.pred (length old)) s')
          else count_from old O s'
      end
  end.

(** ** Exceptions and outcomes *)

Inductive exn :=
  | KeyError
  | AttributeError
  | TypeError
  | ValueError
  | FileNotFoundError
  | FileExistsError
  | NotADirectoryError
  | IsADirectoryError
  | NetworkError
  | SystemExit.

#[global] Instance exn_eq_dec : EqDecision exn.
Proof. solve_decision. Defined.

Inductive result (A : Type) :=
  | Ok (a : A)
  | Raise (e : exn).
Arguments Ok {A} a.
Arguments Raise {A} e.

(** [ord(s)]: defined on strings of length one. *)
Definition ord (s : pystr) : result Z :=
  match s with
  | [c] => Ok c
  | _ => Raise TypeError
  end.

(** [chr(i)]: defined on [0 .. 0x10FFFF]. *)
Definition chr (i : Z) : result pystr :=
  if bool_decide (0 <= i <= 1114111) then Ok [i] else Raise ValueError.

(** ** Values *)

Inductive pyval :=
  | PNone
  | PBool (b : bool)
  | PInt (z : Z)
  | PStr (s : pystr).

#[global] Instance pyval_eq_dec : EqDecision pyval.
Proof. solve_decision. Defined.

(** Truth value of an object, as [if x:] tests it. *)
Definition truthy (v : pyval) : bool :=
  match v with
  | PNone => false
  | PBool b => b
  | PInt z => negb (Z.eqb z 0)
  | PStr s => negb (bool_decide (s = []))
  end.

(** ["{}".format(v)] *)
Definition format (v : pyval) : pystr :=
  match v with
  | PNone => str "None"
  | PBool true => str "True"
  | PBool false => str "False"
  | PInt z => str (pretty z)
  | PStr s => s
  end.

(** [v.replace(old, new)]: only strings have the method. *)
Definition replace_method (v : pyval) (old new : pystr) : result pystr :=
  match v with
  | PStr s => Ok (replace old new s)
  | _ => Raise AttributeError
  end.

(** ** Dictionaries with insertion order *)

Definition pydict := list (pystr * pyval).

(** [d.get(k)] as an option; [d.get(k, dflt)] is [default dflt (get d k)]. *)
Fixpoint get (d : pydict) (k : pystr) : option pyval :=
  match d with
  | [] => None
  | (k', v) :: d' => if decide (k' = k) then Some v else get d' k
  end.

(** [d[k]] *)
Definition getitem (d : pydict) (k : pystr) : result pyval :=
  match get d k with
  | Some v => Ok v
  | None => Raise KeyError
  end.

(** [d[k] = v]: an existing key keeps its place, a new key goes last. *)
Fixpoint setitem (d : pydict) (k : pystr) (v : pyval) : pydict :=
  match d with
  | [] => [(k, v)]
  | (k', v') :: d' =>
      if decide (k' = k) then (k, v) :: d' else (k', v') :: setitem d' k v
  end.

(** [d.update(e)] *)
Definition update (d e : pydict) : pydict :=
  foldl (fun acc kv => setitem acc kv.1 kv.2) d e.

Definition keys (d : pydict) : list pystr := fst <$> d.

End Py.

Export Py.

(** ** What the script talks to *)

(** The JSON of [GET /observations/{id}.json], as far as the script reads
    it.  A key that may be missing is an [option]. *)
Record ObservationField := { of_name : option pyval }.

Record FieldValue := {
  fv_observation_field : option ObservationField;
  fv_value : option pyval
}.

Record ObservationPhoto := {
  op_observation_id : option pyval;
  op_photo : option pydict
}.

Record Observation := {
  obs_observation_photos : option (list ObservationPhoto);
  obs_observation_field_values : option (list FieldValue)
}.

(** A table read by [pd.read_csv]: its columns, by name. *)
Definition csv_table := list (pystr * list pyval).

(** What the script finds around it.  [cwd] is the directory it is run
    in, as the names from the root.  [os_refuses] stands for the reasons,
    other than the resolution of the path, for which the operating system
    does not open a file of that name for writing (permissions, the length
    or the encoding of the name, a full disk). *)
Record world := {
  observations_csv : option csv_table;       (* [None]: no such file *)
  api : pystr -> option Observation;         (* [None]: the request fails *)
  image_host : pystr -> option (list Z);     (* [None]: the download fails *)
  cwd : list pystr;
  os_refuses : pystr -> option exn
}.

Inductive event :=
  | Print (msg : pystr)
  | HttpGet (url : pystr)
  | Sleep (seconds : Z)
  | Mkdir (path : pystr)
  | UrlRetrieve (url filename : pystr).

(** A frame, as far as the script depends on it: the column labels and
    the row labels, which are 0, 1, 2, ... for a frame made from a list.
    The values in the cells, which pandas converts column by column, are
    not part of the model. *)
Record DataFrame := {
  columns : list pystr;
  rows : list nat
}.

(** The script's global variables, the file store and the trace of what
    the process did. *)
Record state := {
  collector_numbers : gmap pystr pystr;
  images : list pydict;
  obs_counter : Z;
  image_counter : Z;
  images_df : option DataFrame;
  dirs : gset pystr;
  files : gmap pystr (list Z);
  trace : list event
}.

Definition set_collector_numbers (f : gmap pystr pystr -> gmap pystr pystr)
    (st : state) : state :=
  {| collector_numbers := f (collector_numbers st); images := images st;
     obs_counter := obs_counter st; image_counter := image_counter st;
     images_df := images_df st; dirs := dirs st; files := files st;
     trace := trace st |}.

Definition set_images (f : list pydict -> list pydict) (st : state) : state :=
  {| collector_numbers := collector_numbers st; images := f (images st);
     obs_counter := obs_counter st; image_counter := image_counter st;
     images_df := images_df st; dirs := dirs st; files := files st;
     trace := trace st |}.

Definition set_obs_counter (f : Z -> Z) (st : state) : state :=
  {| collector_numbers := collector_numbers st; images := images st;
     obs_counter := f (obs_counter st); image_counter := image_counter st;
     images_df := images_df st; dirs := dirs st; files := files st;
     trace := trace st |}.

Definition set_image_counter (f : Z -> Z) (st : state) : state :=
  {| collector_numbers := collector_numbers st; images := images st;
     obs_counter := obs_counter st; image_counter := f (image_counter st);
     images_df := images_df st; dirs := dirs st; files := files st;
     trace := trace st |}.

Definition set_images_df (df : DataFrame) (st : state) : state :=
  {| collector_numbers := collector_numbers st; images := images st;
     obs_counter := obs_counter st; image_counter := image_counter st;
     images_df := Some df; dirs := dirs st; files := files st;
     trace := trace st |}.

Definition set_dirs (f : gset pystr -> gset pystr) (st : state) : state :=
  {| collector_numbers := collector_numbers st; images := images st;
     obs_counter := obs_counter st; image_counter := image_counter st;
     images_df := images_df st; dirs := f (dirs st); files := files st;
     trace := trace st |}.

Definition set_files (f : gmap pystr (list Z) -> gmap pystr (list Z))
    (st : state) : state :=
  {| collector_numbers := collector_numbers st; images := images st;
     obs_counter := obs_counter st; image_counter := image_counter st;
     images_df := images_df st; dirs := dirs st; files := f (files st);
     trace := trace st |}.

Definition emit (e : event) (st : state) : state :=
  {| collector_numbers := collector_numbers st; images := images st;
     obs_counter := obs_counter st; image_counter := image_counter st;
     images_df := images_df st; dirs := dirs st; files := files st;
     trace := trace st ++ [e] |}.

(** The state a fresh process starts in, given what is on disk. *)
Definition initial (d : gset pystr) (f : gmap pystr (list Z)) : state :=
  {| collector_numbers := ∅; images := []; obs_counter := 0;
     image_counter := 0; images_df := None; dirs := d; files := f;
     trace := [] |}.

(** ** Computations *)

Definition M (A : Type) : Type := state -> result A * state.

#[global] Instance M_ret : MRet M := fun A a st => (Ok a, st).

#[global] Instance M_bind : MBind M := fun A B f m st =>
  match m st with
  | (Ok a, st') => f a st'
  | (Raise e, st') => (Raise e, st')
  end.

Definition raise {A} (e : exn) : M A := fun st => (Raise e, st).

Definition lift {A} (r : result A) : M A := fun st => (r, st).

Definition gets {A} (f : state -> A) : M A := fun st => (Ok (f st), st).

Definition modify (f : state -> state) : M unit := fun st => (Ok tt, f st).

(** [try: m  except e: h] *)
Definition try_except {A} (m : M A) (e : exn) (h : M A) : M A := fun st =>
  match m st with
  | (Ok a, st') => (Ok a, st')
  | (Raise e', st') => if decide (e' = e) then h st' else (Raise e', st')
  end.

(** [for x in l: body x] *)
Fixpoint for_each {A} (body : A -> M unit) (l : list A) : M unit :=
  match l with
  | [] => mret tt
  | x :: l' => body x ;; for_each body l'
  end.

Definition print (msg : pystr) : M unit := modify (emit (Print msg)).

Definition sleep (seconds : Z) : M unit := modify (emit (Sleep seconds)).

Definition fmt_nat (n : nat) : pystr := format (PInt (Z.of_nat n)).

(** ** The script *)

Definition No_Collector_Number : pystr := str "No_Collector_Number".

(** [retrieve_image_letter(cn)] *)
Definition retrieve_image_letter (cn : pystr) : M pystr :=
  cns ← gets collector_numbers;
  (if truthy (default PNone (PStr <$> cns !! cn))
   then
     cur ← lift (match cns !! cn with Some l => Ok l | None => Raise KeyError end);
     o ← lift (ord cur);
     c ← lift (chr (o + 1));
     modify (set_collector_numbers <[cn := c]>)
   else
     modify (set_collector_numbers <[cn := str "A"]>));;
  cns' ← gets collector_numbers;
  lift (match cns' !! cn with Some l => Ok l | None => Raise KeyError end).

(** [field.get('observation_field', {}).get('name', '') == 'Collector Number'] *)
Definition is_collector_number_field (field : FieldValue) : bool :=
  let observation_field :=
    default {| of_name := None |} (fv_observation_field field) in
  bool_decide (default (PStr (str "")) (of_name observation_field)
               = PStr (str "Collector Number")).

(** The [for field in obsfields] loop of [retrieve_collector_number]. *)
Fixpoint collector_number_in (obsfields : list FieldValue) : result pystr :=
  match obsfields with
  | [] => Ok No_Collector_Number
  | field :: rest =>
      if is_collector_number_field field
      then replace_method (default (PStr No_Collector_Number) (fv_value field))
             (str " ") (str "_")
      else collector_number_in rest
  end.

(** [retrieve_collector_number(obs)] *)
Definition retrieve_collector_number (obs : Observation) : result pystr :=
  let obsfields := default [] (obs_observation_field_values obs) in
  collector_number_in obsfields.

(** [requests.get(url).json()] *)
Definition requests_get_json (w : world) (url : pystr) : M Observation :=
  modify (emit (HttpGet url));;
  match api w url with
  | Some obs => mret obs
  | None => raise NetworkError
  end.

(** The body of [for photo in photos]. *)
Definition resolve_photo (obs : Observation) (col_num : pystr)
    (photo : ObservationPhoto) : M unit :=
  let photo_data :=
    [(str "observation_id", default PNone (op_observation_id photo))] in
  let photo_data := update photo_data (default [] (op_photo photo)) in
  original ← lift (replace_method
                     (default (PStr (str "")) (get photo_data (str "large_url")))
                     (str "large") (str "original"));
  let photo_data := setitem photo_data (str "original_size_url") (PStr original) in
  cn ← lift (retrieve_collector_number obs);
  let photo_data := setitem photo_data (str "collector_number") (PStr cn) in
  photo_identifier ←
    (if decide (col_num = No_Collector_Number)
     then lift (getitem photo_data (str "id"))
     else
       cn' ← lift (match getitem photo_data (str "collector_number") with
                    | Ok (PStr s) => Ok s
                    | Ok _ => Raise TypeError
                    | Raise e => Raise e
                    end);
       letter ← retrieve_image_letter cn';
       mret (PStr letter));
  let photo_data := setitem photo_data (str "photo_identifier") photo_identifier in
  modify (set_images (fun imgs => imgs ++ [photo_data])).

Definition observation_url (idno : pyval) : pystr :=
  str "https://www.inaturalist.org/observations/" ++ format idno ++ str ".json".

(** The body of [for idno in obs_ids]. *)
Definition resolve_observation (w : world) (idno : pyval) : M unit :=
  let url := observation_url idno in
  obs ← requests_get_json w url;
  let photos := default [] (obs_observation_photos obs) in
  col_num ← lift (retrieve_collector_number obs);
  for_each (resolve_photo obs col_num) photos;;
  sleep 1;;
  modify (set_obs_counter (fun c => c + 1));;
  c ← gets obs_counter;
  n ← gets (fun st => length (images st));
  if bool_decide (c `mod` 10 = 0)
  then print (format (PInt c) ++ str " observations processed, "
              ++ fmt_nat n ++ str " total photo data retrieved")
  else mret tt.

(** Stage 2, the Photo Resolver: lines 52 to 75. *)
Definition photo_resolver (w : world) (obs_ids : list pyval) : M unit :=
  print (str "Retrieving photo data for " ++ fmt_nat (length obs_ids)
         ++ str " observations");;
  for_each (resolve_observation w) obs_ids;;
  c ← gets obs_counter;
  n ← gets (fun st => length (images st));
  print (str "Photo retrieval complete; " ++ format (PInt c)
         ++ str " observations processed, " ++ fmt_nat n
         ++ str " total photo data retrieved").

Definition keep_columns : list pystr :=
  str <$> [ "observation_id"; "id"; "collector_number"; "photo_identifier";
            "created_at"; "updated_at";
            "native_page_url"; "native_username"; "license"; "subtype";
            "native_original_image_url";
            "license_code"; "attribution"; "license_name"; "license_url";
            "type"; "original_size_url" ]%string.

Definition rename_columns : list (pystr * pystr) :=
  [ (str "id", str "photo_id");
    (str "native_page_url", str "inaturalist_page_url");
    (str "native_username", str "inaturalist_username");
    (str "native_original_image_url", str "original_image_url");
    (str "original_size_url", str "image_url") ].

(** [pd.DataFrame(records)]: the columns are the keys in the order in which
    they are first seen, and there is one row for every record. *)
Definition DataFrame_of_records (records : list pydict) : DataFrame :=
  let cols :=
    foldl (fun acc r => acc ++ list_difference (keys r) acc) [] records in
  {| columns := cols; rows := seq 0 (length records) |}.

(** [df[labels]]: every label must be a column; the rows stay. *)
Definition getitem_columns (df : DataFrame) (labels : list pystr)
    : result DataFrame :=
  if forallb (fun c => bool_decide (c ∈ columns df)) labels
  then Ok {| columns := labels; rows := rows df |}
  else Raise KeyError.

Fixpoint lookup_label (m : list (pystr * pystr)) (c : pystr) : option pystr :=
  match m with
  | [] => None
  | (k, v) :: m' => if decide (k = c) then Some v else lookup_label m' c
  end.

(** [df.rename(columns=m)] *)
Definition rename (df : DataFrame) (m : list (pystr * pystr)) : DataFrame :=
  {| columns := (fun c => default c (lookup_label m c)) <$> columns df;
     rows := rows df |}.

(** Stage 3, lines 96 to 99.  Each of the three assignments binds
    [images_df] anew, so that after a [KeyError] at line 97 the variable
    holds the frame of line 96.  The script then prints its message.  It
    has no statement that writes the frame to a file. *)
Definition metadata_writer : M unit :=
  imgs ← gets images;
  let df := DataFrame_of_records imgs in
  modify (set_images_df df);;
  df ← lift (getitem_columns df keep_columns);
  modify (set_images_df df);;
  let df := rename df rename_columns in
  modify (set_images_df df);;
  print (str "Image metadata outputted to image_metadata.csv").

(** ** Files and directories *)

(** The store is keyed by the resolved name of a file or directory: for
    what lies in or below the working directory the names from there,
    joined by "/"; for anything else the names from the root, after a
    leading "/".  The working directory and the directories above it
    exist.  There are no links. *)

(** [name.split('/')] *)
Fixpoint split_path (s : pystr) : list pystr :=
  match s with
  | [] => [[]]
  | c :: s' =>
      if decide (c = 47) then [] :: split_path s'
      else match split_path s' with
           | [] => [[c]]
           | x :: xs => (c :: x) :: xs
           end
  end.

(** ['/'.join(names)] *)
Definition join_path (names : list pystr) : pystr :=
  match names with
  | [] => []
  | x :: xs => x ++ concat ((fun y => 47 :: y) <$> xs)
  end.

Fixpoint strip_prefix (pre l : list pystr) : option (list pystr) :=
  match pre, l with
  | [], _ => Some l
  | _ :: _, [] => None
  | a :: pre', b :: l' => if decide (a = b) then strip_prefix pre' l' else None
  end.

(** The key of the place [p], given by its names from the root. *)
Definition key_of (w : world) (p : list pystr) : pystr :=
  match strip_prefix (cwd w) p with
  | Some rel => join_path rel
  | None => 47 :: join_path p
  end.

Definition is_dir (w : world) (ds : gset pystr) (p : list pystr) : bool :=
  match strip_prefix p (cwd w) with
  | Some _ => true
  | None => bool_decide (key_of w p ∈ ds)
  end.

Definition is_file (w : world) (fs : gmap pystr (list Z)) (p : list pystr)
    : bool :=
  bool_decide (is_Some (fs !! key_of w p)).

(** The directory above [p]; the root is above itself. *)
Definition parent (p : list pystr) : list pystr := take (Nat.pred (length p)) p.

(** Going through the names of a path, one directory at a time. *)
Fixpoint walk (w : world) (ds : gset pystr) (fs : gmap pystr (list Z))
    (cur : list pystr) (names : list pystr) : result (list pystr) :=
  match names with
  | [] => Ok cur
  | c :: rest =>
      if bool_decide (c = []) || bool_decide (c = str ".")
      then walk w ds fs cur rest
      else if bool_decide (c = str "..")
      then walk w ds fs (parent cur) rest
      else if is_dir w ds (cur ++ [c])
      then walk w ds fs (cur ++ [c]) rest
      else if is_file w fs (cur ++ [c])
      then Raise NotADirectoryError
      else Raise FileNotFoundError
  end.

(** [open(filename, 'wb')]: the key of the file that is created or
    emptied, or the error. *)
Definition open_target (w : world) (ds : gset pystr) (fs : gmap pystr (list Z))
    (filename : pystr) : result pystr :=
  if bool_decide (0 ∈ filename) then Raise ValueError
  else match os_refuses w filename with
  | Some e => Raise e
  | None =>
      if bool_decide (filename = []) then Raise FileNotFoundError
      else
        let names := split_path filename in
        let start := if startswith [47] filename then [] else cwd w in
        match walk w ds fs start (take (Nat.pred (length names)) names) with
        | Raise e => Raise e
        | Ok dir =>
            let base := default [] (last names) in
            if bool_decide (base = []) || bool_decide (base = str ".")
               || bool_decide (base = str "..")
            then Raise IsADirectoryError
            else if is_dir w ds (dir ++ [base]) then Raise IsADirectoryError
            else Ok (key_of w (dir ++ [base]))
        end
  end.

(** [os.mkdir(path)], for a plain name in the working directory. *)
Definition os_mkdir (path : pystr) : M unit := fun st =>
  if bool_decide (path ∈ dirs st) || bool_decide (is_Some (files st !! path))
  then (Raise FileExistsError, st)
  else (Ok tt, emit (Mkdir path) (set_dirs (fun d => {[path]} ∪ d) st)).

(** [urllib.request.urlretrieve(url, filename)]: the URL is opened first,
    then the file, and the bytes are written to it. *)
Definition urlretrieve (w : world) (url : pyval) (filename : pystr) : M unit :=
  match url with
  | PStr u =>
      modify (emit (UrlRetrieve u filename));;
      match image_host w u with
      | Some bytes =>
          opened ← gets (fun st =>
                          open_target w (dirs st) (files st) filename);
          key ← lift opened;
          modify (set_files <[key := bytes]>)
      | None => raise NetworkError
      end
  | _ => raise TypeError
  end.

(** ["images/{}_{}.jpg".format(coll_no, photo_iden)] *)
Definition image_name_of (image : pydict) : pystr :=
  let coll_no :=
    default (PStr (str "Unknown")) (get image (str "collector_number")) in
  let photo_iden :=
    default (PStr (str "Unknown")) (get image (str "photo_identifier")) in
  str "images/" ++ format coll_no ++ str "_" ++ format photo_iden ++ str ".jpg".

(** The body of [for image in images]. *)
Definition fetch_image (w : world) (total : nat) (image : pydict) : M unit :=
  let image_name := image_name_of image in
  let image_url := default PNone (get image (str "original_size_url")) in
  (if truthy image_url then urlretrieve w image_url image_name else mret tt);;
  modify (set_image_counter (fun c => c + 1));;
  c ← gets image_counter;
  (if bool_decide (c `mod` 10 = 0)
   then print (str "Retrieved " ++ format (PInt c) ++ str " of "
               ++ fmt_nat total ++ str " images")
   else mret tt);;
  sleep 1.

(** Stage 4, the Image Fetcher: lines 101 to 124. *)
Definition image_fetcher (w : world) : M unit :=
  try_except
    (os_mkdir (str "images");; print (str "Created images directory."))
    FileExistsError
    (print (str "Images directory already exists, using existing images directory"));;
  imgs ← gets images;
  print (str "Retrieving " ++ fmt_nat (length imgs) ++ str " images");;
  for_each (fetch_image w (length imgs)) imgs;;
  print (str "Download complete, " ++ fmt_nat (length imgs) ++ str " of "
         ++ fmt_nat (length imgs) ++ str " images retrieved").

(** [pd.read_csv('observations.csv')] *)
Definition read_csv (w : world) : M csv_table :=
  match observations_csv w with
  | Some t => mret t
  | None => raise FileNotFoundError
  end.

(** [observations['id']] *)
Fixpoint column (t : csv_table) (label : pystr) : result (list pyval) :=
  match t with
  | [] => Raise KeyError
  | (l, vs) :: t' => if decide (l = label) then Ok vs else column t' label
  end.

(** Stage 1, the Input Loader: lines 42 to 47. *)
Definition input_loader (w : world) : M (list pyval) :=
  observations ←
    try_except (read_csv w) FileNotFoundError
      (print (str "Could not find observations.csv. Program is now quitting.");;
       raise SystemExit);
  lift (column observations (str "id")).

(** The whole script. *)
Definition main (w : world) : M unit :=
  obs_ids ← input_loader w;
  photo_resolver w obs_ids;;
  metadata_writer;;
  image_fetcher w.

(** Running the script in a directory with the given content. *)
Definition run (w : world) (d : gset pystr) (f : gmap pystr (list Z))
    : result unit * state :=
  main w (initial d f).

(** * Vocabulary of the properties *)

(** The nested field name of an entry of [observation_field_values]. *)
Definition field_name (field : FieldValue) : option pyval :=
  fv_observation_field field ≫= of_name.

Definition named_collector_number (field : FieldValue) : Prop :=
  field_name field = Some (PStr (str "Collector Number")).

Definition spaces_to_underscores (s : pystr) : pystr :=
  (fun c => if decide (c = 32) then 95 else c) <$> s.

(** [preserves P m]: whatever [m] does, and however it ends, a state in [P]
    stays in [P]. *)
Definition preserves {A} (P : state -> Prop) (m : M A) : Prop :=
  forall st, P st -> P (m st).2.

(** The letter after the one stored for a collector number. *)
Definition next_letter (cur : option pystr) : result pystr :=
  match cur with
  | None | Some [] => Ok [65]
  | Some [c] => chr (c + 1)
  | Some (_ :: _ :: _) => Raise TypeError
  end.

(** The record before the derived keys are added: lines 61 and 62. *)
Definition photo_fields (photo : ObservationPhoto) : pydict :=
  update [(str "observation_id", default PNone (op_observation_id photo))]
    (default [] (op_photo photo)).

(** The record once [original_size_url] and [collector_number] are set. *)
Definition named_record (photo : ObservationPhoto) (original cn : pystr)
    : pydict :=
  setitem (setitem (photo_fields photo) (str "original_size_url") (PStr original))
    (str "collector_number") (PStr cn).

Definition finished_record (photo : ObservationPhoto) (original cn : pystr)
    (photo_identifier : pyval) : pydict :=
  setitem (named_record photo original cn) (str "photo_identifier")
    photo_identifier.

Definition in_group (cn : pystr) (r : pydict) : Prop :=
  get r (str "collector_number") = Some (PStr cn).

#[global] Instance in_group_dec cn r : Decision (in_group cn r).
Proof. unfold in_group. apply _. Defined.

(** The records of one collector number, in the order of [images]. *)
Definition group (cn : pystr) (imgs : list pydict) : list pydict :=
  filter (in_group cn) imgs.

Definition photo_identifiers (rs : list pydict) : list (option pyval) :=
  (fun r => get r (str "photo_identifier")) <$> rs.

(** The letter of rank [k]: A for 0, B for 1, ... *)
Definition letter (k : nat) : pystr := [65 + Z.of_nat k].

(** The first [n] letters: A, B, C, ... by code point. *)
Definition letters (n : nat) : list (option pyval) :=
  (fun k => Some (PStr (letter k))) <$> seq 0 n.

Definition last_letter (n : nat) : option pystr :=
  match n with
  | O => None
  | S k => Some (letter k)
  end.

(** [original_size_url] against [large_url], with [str.replace] as Python
    has it. *)
Definition original_size_url_ok (r : pydict) : Prop :=
  match get r (str "large_url") with
  | None => get r (str "original_size_url") = Some (PStr (str ""))
  | Some (PStr u) =>
      get r (str "original_size_url")
      = Some (PStr (replace (str "large") (str "original") u))
  | Some _ => False
  end.

Definition raw_identifier (r : pydict) : Prop :=
  is_Some (get r (str "id"))
  /\ get r (str "photo_identifier") = get r (str "id").

(** What holds of [images] and [collector_numbers] between two photos. *)
Record resolver_inv (st : state) : Prop := {
  inv_letters : forall cn, cn ≠ No_Collector_Number ->
    photo_identifiers (group cn (images st))
    = letters (length (group cn (images st)));
  inv_last : forall cn, cn ≠ No_Collector_Number ->
    collector_numbers st !! cn = last_letter (length (group cn (images st)));
  inv_raw : Forall raw_identifier (group No_Collector_Number (images st));
  inv_grouped : Forall (fun r => exists cn, in_group cn r) (images st);
  inv_url : Forall original_size_url_ok (images st)
}.

(** The records the Photo Resolver leaves in [images] when it ends,
    normally or with an exception.  In [main] it starts in the state of a
    fresh process, since the Input Loader changes nothing when it succeeds. *)
Definition resolved (w : world) (obs_ids : list pyval)
    (d : gset pystr) (f : gmap pystr (list Z)) : list pydict :=
  images (photo_resolver w obs_ids (initial d f)).2.


(** The photo identifiers of every group are pairwise distinct. *)
Definition identifiers_unique_in_groups (imgs : list pydict) : Prop :=
  forall cn, NoDup (photo_identifiers (group cn imgs)).

(** [original_size_url] is [large_url] with only the leftmost "large"
    replaced. *)
Definition first_occurrence_replaced (r : pydict) : Prop :=
  forall u, get r (str "large_url") = Some (PStr u) ->
    get r (str "original_size_url")
    = Some (PStr (replace_first (str "large") (str "original") u)).


(** The URL the Image Fetcher asks for: [original_size_url] when the record
    has it and it is a string that is not empty. *)
Definition wanted_url (image : pydict) : option pystr :=
  match get image (str "original_size_url") with
  | Some (PStr u) => if decide (u = []) then None else Some u
  | _ => None
  end.

(** The downloads of a list of records, one after the other. *)
Definition downloads (imgs : list pydict) : list event :=
  omap (fun image => u ← wanted_url image;
                     Some (UrlRetrieve u (image_name_of image))) imgs.

(** The file store after these downloads, each writing what the host sent. *)
Definition written (w : world) (imgs : list pydict)
    (fs : gmap pystr (list Z)) : gmap pystr (list Z) :=
  foldl (fun fs image =>
           match wanted_url image ≫= image_host w with
           | Some bytes => <[image_name_of image := bytes]> fs
           | None => fs
           end) fs imgs.

Definition is_retrieve (e : event) : bool :=
  match e with UrlRetrieve _ _ => true | _ => false end.

Definition is_request (e : event) : bool :=
  match e with HttpGet _ | UrlRetrieve _ _ => true | _ => false end.

(** The URL of a record is one the host answers, when the fetcher asks. *)
Definition served (w : world) (image : pydict) : Prop :=
  truthy (default PNone (get image (str "original_size_url"))) = true ->
  exists u bytes, get image (str "original_size_url") = Some (PStr u)
                  /\ image_host w u = Some bytes.

(** [s.endswith(ext)] *)
Definition endswith (s ext : pystr) : bool :=
  startswith (reverse ext) (reverse s).

(** A text that is one name of a path: it has no "/" and no NUL in it. *)
Definition plain (s : pystr) : Prop := (47 ∉ s) /\ (0 ∉ s).

(** The two parts of the file name of a record, as lines 113 and 114 read
    them. *)
Definition coll_no_of (image : pydict) : pyval :=
  default (PStr (str "Unknown")) (get image (str "collector_number")).

Definition photo_iden_of (image : pydict) : pyval :=
  default (PStr (str "Unknown")) (get image (str "photo_identifier")).

(** The file of a record can be made in the directory images, when the
    fetcher asks for it: both parts of its name are plain, the system does
    not refuse the name, and no directory has that name. *)
Definition storable (w : world) (ds : gset pystr) (image : pydict) : Prop :=
  truthy (default PNone (get image (str "original_size_url"))) = true ->
  plain (format (coll_no_of image))
  /\ plain (format (photo_iden_of image))
  /\ os_refuses w (image_name_of image) = None
  /\ (image_name_of image ∉ ds).

(** The file store after the download of one record, where the name
    resolves to: nothing changes when there is no download or the file
    cannot be opened. *)
Definition store_one (w : world) (ds : gset pystr)
    (fs : gmap pystr (list Z)) (image : pydict) : gmap pystr (list Z) :=
  match wanted_url image ≫= image_host w,
        open_target w ds fs (image_name_of image) with
  | Some bytes, Ok key => <[key := bytes]> fs
  | _, _ => fs
  end.

(** The file store after these downloads, one after the other. *)
Definition stored (w : world) (ds : gset pystr) (imgs : list pydict)
    (fs : gmap pystr (list Z)) : gmap pystr (list Z) :=
  foldl (store_one w ds) fs imgs.

(** What the Image Fetcher is judged by: the records, the file store and
    the downloads made so far. *)
Definition view (st : state) : list pydict * gmap pystr (list Z) * list event :=
  (images st, files st, filter is_retrieve (trace st)).

(** A step is quiet when it ends normally and leaves the view alone. *)
Definition quiet {A} (m : M A) : Prop :=
  forall st, exists a st', m st = (Ok a, st') /\ view st' = view st.

(** The header of the metadata table, as section 6 of the specification
    lists it. *)
Definition metadata_header : list pystr :=
  str <$> [ "observation_id"; "photo_id"; "collector_number";
            "photo_identifier"; "created_at"; "updated_at";
            "inaturalist_page_url"; "inaturalist_username"; "license";
            "subtype"; "original_image_url"; "license_code"; "attribution";
            "license_name"; "license_url"; "type"; "image_url" ]%string.

(** The observation has an entry named "Collector Number". *)
Definition has_collector_number_field (obs : Observation) : Prop :=
  Exists named_collector_number (default [] (obs_observation_field_values obs)).

(** The raw-id branch is taken only for observations without such an
    entry. *)
Definition fallback_only_when_absent (obs : Observation) : Prop :=
  retrieve_collector_number obs = Ok No_Collector_Number ->
  ¬ has_collector_number_field obs.

(** Every record whose URL the host answers has, after the run, a file
    under the name made of its collector number and photo identifier. *)
Definition every_answered_image_stored (w : world) (d : gset pystr)
    (f : gmap pystr (list Z)) : Prop :=
  forall image u,
    image ∈ images (run w d f).2 ->
    wanted_url image = Some u -> is_Some (image_host w u) ->
    is_Some (files (run w d f).2 !! image_name_of image).
(** ** Sample data *)

Module Sample.

Definition collector_number_entry (v : pystr) : FieldValue :=
  {| fv_observation_field :=
       Some {| of_name := Some (PStr (str "Collector Number")) |};
     fv_value := Some (PStr v) |}.

Definition photo_of (obs_id photo_id : Z) (large_url : pystr)
    : ObservationPhoto :=
  {| op_observation_id := Some (PInt obs_id);
     op_photo := Some [(str "id", PInt photo_id);
                       (str "large_url", PStr large_url)] |}.

(** Observation 100: no "Collector Number" field, one photo, id 555. *)
Definition obs100 : Observation :=
  {| obs_observation_photos :=
       Some [photo_of 100 555 (str "https://static.example/photos/555/large.jpg")];
     obs_observation_field_values := None |}.

(** Observation 200: Collector Number "AB 12", two photos. *)
Definition obs200 : Observation :=
  {| obs_observation_photos :=
       Some [photo_of 200 1 (str "https://static.example/photos/1/large.jpg");
             photo_of 200 2 (str "https://static.example/photos/2/large.jpg")];
     obs_observation_field_values := Some [collector_number_entry (str "AB 12")] |}.

(** Observation 300: a large_url in which "large" occurs twice. *)
Definition obs300 : Observation :=
  {| obs_observation_photos :=
       Some [photo_of 300 7 (str "https://large.example/photos/7/large.jpg")];
     obs_observation_field_values := Some [collector_number_entry (str "C 3")] |}.

(** Observation 400: the field is there and its value reads like the
    sentinel. *)
Definition obs400 : Observation :=
  {| obs_observation_photos :=
       Some [photo_of 400 9 (str "https://static.example/photos/9/large.jpg")];
     obs_observation_field_values :=
       Some [collector_number_entry (str "No Collector Number")] |}.

(** Observation 500: the field is there with an empty value. *)
Definition obs500 : Observation :=
  {| obs_observation_photos :=
       Some [photo_of 500 11 (str "https://static.example/photos/11/large.jpg");
             photo_of 500 12 (str "https://static.example/photos/12/large.jpg")];
     obs_observation_field_values := Some [collector_number_entry (str "")] |}.

(** Observation 600: no "Collector Number" field, one photo, id 601, with
    every field that the metadata table keeps. *)
Definition obs600 : Observation :=
  {| obs_observation_photos :=
       Some [ {| op_observation_id := Some (PInt 600);
                 op_photo := Some
                   [ (str "id", PInt 601);
                     (str "created_at", PStr (str "2019-06-01T10:00:00Z"));
                     (str "updated_at", PStr (str "2019-06-01T10:00:05Z"));
                     (str "native_page_url", PStr (str "https://www.inaturalist.org/photos/601"));
                     (str "native_username", PStr (str "collector"));
                     (str "license", PInt 4);
                     (str "subtype", PNone);
                     (str "native_original_image_url", PNone);
                     (str "license_code", PStr (str "cc-by"));
                     (str "attribution", PStr (str "(c) collector"));
                     (str "license_name", PStr (str "Creative Commons Attribution License"));
                     (str "license_url", PStr (str "https://creativecommons.org/licenses/by/4.0/"));
                     (str "type", PStr (str "LocalPhoto"));
                     (str "large_url", PStr (str "https://static.example/photos/601/large.jpg")) ] |} ];
     obs_observation_field_values := None |}.

Definition server : list (pyval * Observation) :=
  [(PInt 100, obs100); (PInt 200, obs200); (PInt 300, obs300);
   (PInt 400, obs400); (PInt 500, obs500); (PInt 600, obs600)].

Fixpoint serve (l : list (pyval * Observation)) (url : pystr)
    : option Observation :=
  match l with
  | [] => None
  | (idno, obs) :: l' =>
      if decide (url = observation_url idno) then Some obs else serve l' url
  end.

(** The directory the script is run in. *)
Definition home : list pystr := [str "home"; str "collector"; str "inat"].

(** A world with the given [id] column, in which every image URL gives
    three bytes. *)
Definition world_with (obs_ids : list pyval) : world :=
  {| observations_csv := Some [(str "id", obs_ids)];
     api := serve server;
     image_host := fun _ => Some [255; 216; 255];
     cwd := home;
     os_refuses := fun _ => None |}.

Definition missing_input : world :=
  {| observations_csv := None;
     api := serve server;
     image_host := fun _ => Some [255; 216; 255];
     cwd := home;
     os_refuses := fun _ => None |}.

(** A photo entry with every field that the metadata table keeps. *)
Definition full_photo (obs_id photo_id : Z) (large_url : pystr)
    : ObservationPhoto :=
  {| op_observation_id := Some (PInt obs_id);
     op_photo := Some
       [ (str "id", PInt photo_id);
         (str "created_at", PStr (str "2019-06-01T10:00:00Z"));
         (str "updated_at", PStr (str "2019-06-01T10:00:05Z"));
         (str "native_page_url", PStr (str "https://www.inaturalist.org/photos/1"));
         (str "native_username", PStr (str "collector"));
         (str "license", PInt 4);
         (str "subtype", PNone);
         (str "native_original_image_url", PNone);
         (str "license_code", PStr (str "cc-by"));
         (str "attribution", PStr (str "(c) collector"));
         (str "license_name", PStr (str "Creative Commons Attribution License"));
         (str "license_url", PStr (str "https://creativecommons.org/licenses/by/4.0/"));
         (str "type", PStr (str "LocalPhoto"));
         (str "large_url", PStr large_url) ] |}.

(** A world with one observation, whose Collector Number is [cn] and which
    has one photo with every field; every image URL gives three bytes. *)
Definition world_of_collector_number (idno : Z) (cn : pystr) : world :=
  {| observations_csv := Some [(str "id", [PInt idno])];
     api := fun url =>
       if decide (url = observation_url (PInt idno))
       then Some {| obs_observation_photos :=
                      Some [full_photo idno 1
                              (str "https://static.example/photos/1/large.jpg")];
                    obs_observation_field_values :=
                      Some [collector_number_entry cn] |}
       else None;
     image_host := fun _ => Some [255; 216; 255];
     cwd := home;
     os_refuses := fun _ => None |}.

(** A state with two records: one with a URL to fetch, one with an empty
    [original_size_url]. *)
Definition two_records : state :=
  set_images
    (fun _ =>
       [ [ (str "collector_number", PStr (str "AB_12"));
           (str "photo_identifier", PStr (str "A"));
           (str "original_size_url",
            PStr (str "https://static.example/photos/1/original.jpg")) ];
         [ (str "collector_number", PStr (str "AB_12"));
           (str "photo_identifier", PStr (str "B"));
           (str "original_size_url", PStr (str "")) ] ])
    (initial ∅ ∅).

(** The records resolved for the given ids by a fresh process in an empty
    directory. *)
Definition records (obs_ids : list pyval) : list pydict :=
  resolved (world_with obs_ids) obs_ids ∅ ∅.

End Sample.

(** * Further vocabulary *)

(** [n] calls of [retrieve_image_letter(cn)], one after the other, and
    what they returned. *)
Fixpoint letters_for (cn : pystr) (n : nat) : M (list pystr) :=
  match n with
  | O => mret []
  | S k =>
      l ← retrieve_image_letter cn;
      ls ← letters_for cn k;
      mret (l :: ls)
  end.

(** An observation as far as [retrieve_collector_number] reads it. *)
Definition with_fields (fields : list FieldValue) : Observation :=
  {| obs_observation_photos := None;
     obs_observation_field_values := Some fields |}.

(** The keys that the loop body sets itself. *)
Definition derived_keys : list pystr :=
  [str "original_size_url"; str "collector_number"; str "photo_identifier"].

(** The value under [k] in the photo object of an entry, the last one if
    the key is repeated. *)
Definition photo_value (photo : ObservationPhoto) (k : pystr) : option pyval :=
  get (reverse (default [] (op_photo photo))) k.

(** The requests to the API and the pauses, which pace the resolver. *)
Definition is_paced (e : event) : bool :=
  match e with HttpGet _ | Sleep _ => true | _ => false end.

(** One request and one pause of a second for every observation id. *)
Definition paced (obs_ids : list pyval) : list event :=
  obs_ids ≫= (fun idno => [HttpGet (observation_url idno); Sleep 1]).

(** What touches the disk: making a directory, downloading. *)
Definition is_disk (e : event) : bool :=
  match e with Mkdir _ | UrlRetrieve _ _ => true | _ => false end.

(** ** More sample data *)

Module More.

(** An entry named "Collector Number" that has no [value] key. *)
Definition valueless_entry : FieldValue :=
  {| fv_observation_field :=
       Some {| of_name := Some (PStr (str "Collector Number")) |};
     fv_value := None |}.

(** A photo entry whose photo object is empty: no [id], no [large_url]. *)
Definition bare_photo : ObservationPhoto :=
  {| op_observation_id := Some (PInt 200); op_photo := Some [] |}.

(** A photo object that brings its own [observation_id] and repeats a key. *)
Definition odd_photo : ObservationPhoto :=
  {| op_observation_id := Some (PInt 200);
     op_photo := Some [ (str "id", PInt 1);
                        (str "observation_id", PInt 999);
                        (str "license", PInt 2);
                        (str "license", PInt 4) ] |}.

(** A state in which the letter of "X" is the last code point. *)
Definition last_letter_state : state :=
  set_collector_numbers (fun _ => {[ str "X" := [1114111] ]}) (initial ∅ ∅).

(** A record with every kept key. *)
Definition full_record : pydict := (fun k => (k, PNone)) <$> keep_columns.

Definition one_full_record : state :=
  set_images (fun _ => [full_record]) (initial ∅ ∅).

(** An input table without an [id] column. *)
Definition no_id_column : world :=
  {| observations_csv := Some [(str "name", [PStr (str "oak")])];
     api := fun _ => None;
     image_host := fun _ => None;
     cwd := Sample.home;
     os_refuses := fun _ => None |}.


(** Observation 700: one photo whose [large_url] has no "large" in it. *)
Definition obs700 : Observation :=
  {| obs_observation_photos :=
       Some [Sample.photo_of 700 8 (str "https://static.example/photos/8/medium.jpg")];
     obs_observation_field_values := None |}.

Definition world_700 : world :=
  {| observations_csv := Some [(str "id", [PInt 700])];
     api := fun url => if decide (url = observation_url (PInt 700))
                       then Some obs700 else None;
     image_host := fun _ => Some [255; 216; 255];
     cwd := Sample.home;
     os_refuses := fun _ => None |}.

End More.
(** * Properties *)

Arguments str : simpl never.

(** Two literals of the script differ. *)
Ltac str_neq := let H := fresh in intros H; vm_compute in H; discriminate H.

(** ** Dictionaries *)

Section Dict.
Implicit Types (d e : pydict) (k : pystr) (v : pyval).

Lemma get_setitem_eq d k v : get (setitem d k v) k = Some v.
Proof.
  induction d as [|[k' v'] d IH]; simpl.
  - by rewrite decide_True.
  - destruct (decide (k' = k)) as [->|Hne]; simpl.
    + by rewrite decide_True.
    + by rewrite decide_False.
Qed.

Lemma get_setitem_ne d k k' v : k ≠ k' -> get (setitem d k v) k' = get d k'.
Proof.
  intros Hne. induction d as [|[k0 v0] d IH]; simpl.
  - by rewrite decide_False.
  - destruct (decide (k0 = k)) as [->|Hk]; simpl.
    + by rewrite !decide_False.
    + by rewrite IH.
Qed.

Lemma get_in_keys d k : is_Some (get d k) <-> k ∈ keys d.
Proof.
  unfold keys. induction d as [|[k' v'] d IH]; simpl.
  - split; [by intros [? ?] | by intros ?%elem_of_nil].
  - destruct (decide (k' = k)) as [->|Hne].
    + split; [intros _; left | eauto].
    + rewrite IH. split; [by right|].
      intros [?|?]%elem_of_cons; [congruence | done].
Qed.

Lemma get_update_not_in d e k :
  k ∉ keys e -> get (update d e) k = get d k.
Proof.
  unfold update, keys. revert d.
  induction e as [|[k' v'] e IH]; intros d Hk; simpl; [done|].
  simpl in Hk. apply not_elem_of_cons in Hk as [Hne Hk].
  rewrite IH by done. by apply get_setitem_ne.
Qed.
End Dict.

(** ** [str.replace] *)

Section Replace.
Implicit Types (old new s : pystr).

Lemma replace_from_drop old new k s :
  replace_from old new k s = replace_from old new O (drop k s).
Proof.
  revert k. induction s as [|c s IH]; intros [|k]; simpl; auto.
Qed.

Lemma count_from_drop old k s :
  count_from old k s = count_from old O (drop k s).
Proof.
  revert k. induction s as [|c s IH]; intros [|k]; simpl; auto.
Qed.

Lemma replace_from_no_occurrence old new s :
  count_from old O s = O -> replace_from old new O s = s.
Proof.
  induction s as [|c s IH]; simpl; [done|].
  destruct (startswith old (c :: s)); [done|].
  intros H. by rewrite IH.
Qed.

(** With at most one occurrence, replacing all of them and replacing the
    first one are the same. *)
Lemma replace_at_most_one old new s :
  old ≠ [] -> (count_from old O s <= 1)%nat ->
  replace old new s = replace_first old new s.
Proof.
  intros Hold. destruct old as [|a old]; [done|]. unfold replace. clear Hold.
  induction s as [|c s IH]; [done|].
  cbn [replace_from count_from replace_first].
  destruct (startswith (a :: old) (c :: s)).
  - intros Hn. f_equal. rewrite replace_from_drop.
    rewrite count_from_drop in Hn. simpl in *.
    apply replace_from_no_occurrence. lia.
  - intros Hn. f_equal. by apply IH.
Qed.

(** Replacing a one-character text changes each character on its own. *)
Lemma replace_char a b s :
  replace [a] [b] s = (fun c => if decide (c = a) then b else c) <$> s.
Proof.
  unfold replace. induction s as [|c s IH]; [done|].
  simpl. rewrite IH. destruct (decide (c = a)) as [->|Hne].
  - by rewrite bool_decide_eq_true_2.
  - rewrite bool_decide_eq_false_2 by congruence. done.
Qed.
End Replace.

(** ** [retrieve_collector_number] *)

Lemma is_collector_number_field_spec field :
  is_collector_number_field field = true <-> named_collector_number field.
Proof.
  unfold is_collector_number_field, named_collector_number, field_name.
  rewrite bool_decide_eq_true.
  destruct (fv_observation_field field) as [[[n|]]|]; simpl.
  - split; congruence.
  - split; [|done]. intros H; vm_compute in H; discriminate.
  - split; [|done]. intros H; vm_compute in H; discriminate.
Qed.

Lemma collector_number_in_no_match fields :
  Forall (fun f => ¬ named_collector_number f) fields ->
  collector_number_in fields = Ok No_Collector_Number.
Proof.
  induction 1 as [|f fields Hf _ IH]; simpl; [done|].
  destruct (is_collector_number_field f) eqn:E; [|done].
  by apply is_collector_number_field_spec in E.
Qed.

Lemma collector_number_in_first_match pre field post :
  Forall (fun f => ¬ named_collector_number f) pre ->
  named_collector_number field ->
  collector_number_in (pre ++ field :: post)
  = replace_method (default (PStr No_Collector_Number) (fv_value field))
      (str " ") (str "_").
Proof.
  intros Hpre Hf. induction Hpre as [|f pre Hn _ IH]; simpl.
  - apply is_collector_number_field_spec in Hf. by rewrite Hf.
  - destruct (is_collector_number_field f) eqn:E; [|done].
    by apply is_collector_number_field_spec in E.
Qed.

(** What the function returns in every case: a matching entry without a
    [value] key gives the sentinel, a value that is not a string has no
    [replace] method. *)
Lemma retrieve_collector_number_cases obs pre field post :
  default [] (obs_observation_field_values obs) = pre ++ field :: post ->
  Forall (fun f => ¬ named_collector_number f) pre ->
  named_collector_number field ->
  retrieve_collector_number obs =
    match fv_value field with
    | None => Ok No_Collector_Number
    | Some (PStr v) => Ok (spaces_to_underscores v)
    | Some _ => Raise AttributeError
    end.
Proof.
  intros Hfields Hpre Hf. unfold retrieve_collector_number.
  rewrite Hfields, collector_number_in_first_match by done.
  destruct (fv_value field) as [[]|]; simpl; try done.
  f_equal. apply (replace_char 32 95).
Qed.

(** C6.  The collector number of an observation is the value of the first
    entry of [observation_field_values] whose nested field name is
    "Collector Number", with every space turned into an underscore; without
    such an entry, and in particular without the key
    [observation_field_values], it is the sentinel "No_Collector_Number". *)
Theorem retrieve_collector_number_spec (obs : Observation) :
  (forall pre field post v,
      default [] (obs_observation_field_values obs) = pre ++ field :: post ->
      Forall (fun f => ¬ named_collector_number f) pre ->
      named_collector_number field ->
      fv_value field = Some (PStr v) ->
      retrieve_collector_number obs = Ok (spaces_to_underscores v))
  /\ (Forall (fun f => ¬ named_collector_number f)
        (default [] (obs_observation_field_values obs)) ->
      retrieve_collector_number obs = Ok No_Collector_Number)
  /\ (obs_observation_field_values obs = None ->
      retrieve_collector_number obs = Ok No_Collector_Number).
Proof.
  split; [|split].
  - intros pre field post v Hfields Hpre Hf Hv.
    rewrite (retrieve_collector_number_cases obs pre field post) by done.
    by rewrite Hv.
  - intros Hnone. by apply collector_number_in_no_match.
  - intros Habsent. unfold retrieve_collector_number. by rewrite Habsent.
Qed.

(** ** Reasoning about computations *)

Ltac munfold :=
  unfold mbind, mret, M_bind, M_ret, lift, gets, modify, raise, print, sleep in *.

Section Preserves.
Context (P : state -> Prop).

Lemma preserves_ret {A} (a : A) : preserves P (mret a).
Proof. by intros st. Qed.

Lemma preserves_raise {A} e : preserves P (@raise A e).
Proof. by intros st. Qed.

Lemma preserves_lift {A} (r : result A) : preserves P (lift r).
Proof. by intros st. Qed.

Lemma preserves_gets {A} (f : state -> A) : preserves P (gets f).
Proof. by intros st. Qed.

Lemma preserves_modify f :
  (forall st, P st -> P (f st)) -> preserves P (modify f).
Proof. intros Hf st. apply Hf. Qed.

Lemma preserves_bind {A B} (m : M A) (f : A -> M B) :
  preserves P m -> (forall a, preserves P (f a)) -> preserves P (m ≫= f).
Proof.
  intros Hm Hf st HP. munfold. specialize (Hm st HP).
  destruct (m st) as [[a|e] st']; simpl in *; [by apply Hf | done].
Qed.

(** The continuation only runs on the value that [r] holds. *)
Lemma preserves_bind_lift {A B} (r : result A) (f : A -> M B) :
  (forall a, r = Ok a -> preserves P (f a)) -> preserves P (lift r ≫= f).
Proof.
  intros Hf st HP. munfold. destruct r as [a|e]; simpl; [by apply Hf | done].
Qed.

Lemma preserves_for_each {A} (body : A -> M unit) l :
  (forall x, x ∈ l -> preserves P (body x)) -> preserves P (for_each body l).
Proof.
  induction l as [|x l IH]; intros Hbody; simpl.
  - apply preserves_ret.
  - apply preserves_bind.
    + apply Hbody. by left.
    + intros _. apply IH. intros y Hy. apply Hbody. by right.
Qed.

Lemma preserves_try_except {A} (m h : M A) e :
  preserves P m -> preserves P h -> preserves P (try_except m e h).
Proof.
  intros Hm Hh st HP. unfold try_except. specialize (Hm st HP).
  destruct (m st) as [[a|e'] st']; simpl in *; [done|].
  destruct (decide (e' = e)); [by apply Hh | done].
Qed.

Lemma preserves_if {A} (b : bool) (m1 m2 : M A) :
  preserves P m1 -> preserves P m2 -> preserves P (if b then m1 else m2).
Proof. by destruct b. Qed.
End Preserves.

(** The two steps of a bind, as equations. *)
Lemma bind_ok {A B} (m : M A) (f : A -> M B) st a st' :
  m st = (Ok a, st') -> (m ≫= f) st = f a st'.
Proof. intros H. munfold. by rewrite H. Qed.

Lemma bind_raise {A B} (m : M A) (f : A -> M B) st e st' :
  m st = (Raise e, st') -> (m ≫= f) st = (Raise e, st').
Proof. intros H. munfold. by rewrite H. Qed.

(** ** [retrieve_image_letter] *)

Lemma retrieve_image_letter_run cn st :
  retrieve_image_letter cn st =
    match next_letter (collector_numbers st !! cn) with
    | Ok l => (Ok l, set_collector_numbers <[cn := l]> st)
    | Raise e => (Raise e, st)
    end.
Proof.
  unfold retrieve_image_letter. munfold.
  destruct (collector_numbers st !! cn) as [[|c [|c' l]]|] eqn:E; simpl.
  - by rewrite lookup_insert_eq.
  - destruct (chr (c + 1)) as [l|e]; simpl; [|done].
    by rewrite lookup_insert_eq.
  - done.
  - by rewrite lookup_insert_eq.
Qed.

(** ** One photo *)

(** Every way in which the loop body can go. *)
Lemma resolve_photo_run obs col_num photo st :
  resolve_photo obs col_num photo st =
    match replace_method
            (default (PStr (str "")) (get (photo_fields photo) (str "large_url")))
            (str "large") (str "original") with
    | Raise e => (Raise e, st)
    | Ok original =>
        match retrieve_collector_number obs with
        | Raise e => (Raise e, st)
        | Ok cn =>
            if decide (col_num = No_Collector_Number)
            then
              match get (named_record photo original cn) (str "id") with
              | Some v =>
                  (Ok tt,
                   set_images
                     (fun imgs => imgs ++ [finished_record photo original cn v])
                     st)
              | None => (Raise KeyError, st)
              end
            else
              match next_letter (collector_numbers st !! cn) with
              | Ok l =>
                  (Ok tt,
                   set_images
                     (fun imgs =>
                        imgs ++ [finished_record photo original cn (PStr l)])
                     (set_collector_numbers <[cn := l]> st))
              | Raise e => (Raise e, st)
              end
        end
    end.
Proof.
  unfold resolve_photo. fold (photo_fields photo).
  destruct (replace_method _ _ _) as [original|e]; [|done].
  erewrite bind_ok by reflexivity.
  destruct (retrieve_collector_number obs) as [cn|e]; [|done].
  erewrite bind_ok by reflexivity.
  fold (named_record photo original cn).
  destruct (decide (col_num = No_Collector_Number)) as [Hs|Hs].
  - unfold getitem.
    destruct (get (named_record photo original cn) (str "id")) as [v|]; [|done].
    erewrite bind_ok by reflexivity. done.
  - unfold getitem.
    replace (get (named_record photo original cn) (str "collector_number"))
      with (Some (PStr cn)) by (symmetry; apply get_setitem_eq).
    munfold. simpl. rewrite retrieve_image_letter_run.
    by destruct (next_letter (collector_numbers st !! cn)).
Qed.

Section Records.
Context (photo : ObservationPhoto) (original cn : pystr) (v : pyval).

Lemma finished_record_collector_number :
  get (finished_record photo original cn v) (str "collector_number")
  = Some (PStr cn).
Proof.
  unfold finished_record, named_record.
  rewrite get_setitem_ne by str_neq. apply get_setitem_eq.
Qed.

Lemma finished_record_photo_identifier :
  get (finished_record photo original cn v) (str "photo_identifier") = Some v.
Proof. apply get_setitem_eq. Qed.

Lemma finished_record_id :
  get (finished_record photo original cn v) (str "id")
  = get (named_record photo original cn) (str "id").
Proof. unfold finished_record. by rewrite get_setitem_ne by str_neq. Qed.

Lemma finished_record_original_size_url :
  get (finished_record photo original cn v) (str "original_size_url")
  = Some (PStr original).
Proof.
  unfold finished_record, named_record.
  rewrite !get_setitem_ne by str_neq. apply get_setitem_eq.
Qed.

Lemma finished_record_large_url :
  get (finished_record photo original cn v) (str "large_url")
  = get (photo_fields photo) (str "large_url").
Proof.
  unfold finished_record, named_record.
  by rewrite !get_setitem_ne by str_neq.
Qed.
End Records.

(** ** The records of a run *)

Lemma letters_S n : letters (S n) = letters n ++ [Some (PStr (letter n))].
Proof. unfold letters. by rewrite seq_S, fmap_app. Qed.

Lemma group_snoc_in cn imgs r :
  in_group cn r -> group cn (imgs ++ [r]) = group cn imgs ++ [r].
Proof.
  intros Hr. unfold group. rewrite filter_app. f_equal.
  rewrite filter_cons_True by done. done.
Qed.

Lemma group_snoc_out cn imgs r :
  ¬ in_group cn r -> group cn (imgs ++ [r]) = group cn imgs.
Proof.
  intros Hr. unfold group. rewrite filter_app, filter_cons_False by done.
  rewrite filter_nil. apply app_nil_r.
Qed.

Lemma in_group_inj cn cn' r : in_group cn r -> in_group cn' r -> cn = cn'.
Proof. unfold in_group. congruence. Qed.

Lemma next_letter_last n l :
  next_letter (last_letter n) = Ok l -> l = letter n.
Proof.
  unfold letter. destruct n as [|k]; simpl; [by intros [= <-]|].
  unfold chr. case_bool_decide; [|done].
  intros [= <-]. f_equal. lia.
Qed.

Lemma resolver_inv_initial d f : resolver_inv (initial d f).
Proof.
  split; simpl; done.
Qed.

Lemma photo_url_ok photo original cn v :
  replace_method
    (default (PStr (str "")) (get (photo_fields photo) (str "large_url")))
    (str "large") (str "original") = Ok original ->
  original_size_url_ok (finished_record photo original cn v).
Proof.
  unfold original_size_url_ok.
  rewrite finished_record_large_url, finished_record_original_size_url.
  destruct (get (photo_fields photo) (str "large_url")) as [[]|]; simpl;
    try done; by intros [= <-].
Qed.

(** One photo keeps the invariant, however the loop body ends. *)
Lemma resolve_photo_inv obs col_num photo :
  retrieve_collector_number obs = Ok col_num ->
  preserves resolver_inv (resolve_photo obs col_num photo).
Proof.
  intros Hcn st Hinv. rewrite resolve_photo_run, Hcn.
  destruct (replace_method _ _ _) as [original|e] eqn:Hurl; [|done].
  destruct (decide (col_num = No_Collector_Number)) as [Hs|Hs].
  - destruct (get (named_record photo original col_num) (str "id"))
      as [v|] eqn:Hid; [|done].
    set (r := finished_record photo original col_num v).
    assert (Hr : in_group No_Collector_Number r).
    { subst col_num. apply finished_record_collector_number. }
    destruct Hinv as [Hl Hlast Hraw Hgr Hu]. split; simpl.
    + intros cn Hne. rewrite group_snoc_out; [by apply Hl|].
      intros Hin. apply Hne. eapply in_group_inj; eauto.
    + intros cn Hne. rewrite group_snoc_out; [by apply Hlast|].
      intros Hin. apply Hne. eapply in_group_inj; eauto.
    + rewrite group_snoc_in by done. apply Forall_app. split; [done|].
      apply Forall_singleton. unfold raw_identifier, r.
      rewrite finished_record_photo_identifier, finished_record_id, Hid.
      eauto.
    + apply Forall_app. split; [done|]. apply Forall_singleton. eauto.
    + apply Forall_app. split; [done|]. apply Forall_singleton.
      by apply photo_url_ok.
  - destruct (next_letter (collector_numbers st !! col_num)) as [l|e] eqn:Hl;
      [|done].
    set (r := finished_record photo original col_num (PStr l)).
    assert (Hr : in_group col_num r)
      by apply finished_record_collector_number.
    destruct Hinv as [Hlet Hlast Hraw Hgr Hu].
    rewrite (Hlast col_num Hs) in Hl. apply next_letter_last in Hl.
    split; simpl.
    + intros cn Hne. destruct (decide (cn = col_num)) as [->|Hother].
      * rewrite group_snoc_in by done. unfold photo_identifiers.
        rewrite fmap_app, length_app. simpl.
        rewrite Nat.add_1_r, letters_S. f_equal; [by apply Hlet|].
        unfold r. by rewrite finished_record_photo_identifier, Hl.
      * rewrite group_snoc_out; [by apply Hlet|].
        intros Hin. apply Hother. eapply in_group_inj; eauto.
    + intros cn Hne. destruct (decide (cn = col_num)) as [->|Hother].
      * rewrite group_snoc_in, length_app, lookup_insert_eq by done.
        simpl. by rewrite Nat.add_1_r, Hl.
      * rewrite lookup_insert_ne by done.
        rewrite group_snoc_out; [by apply Hlast|].
        intros Hin. apply Hother. eapply in_group_inj; eauto.
    + rewrite group_snoc_out; [done|].
      intros Hin. apply Hs. eapply in_group_inj; eauto.
    + apply Forall_app. split; [done|]. apply Forall_singleton. eauto.
    + apply Forall_app. split; [done|]. apply Forall_singleton.
      by apply photo_url_ok.
Qed.

(** Steps that touch neither [images] nor [collector_numbers]. *)
Lemma resolver_inv_frame st st' :
  images st' = images st -> collector_numbers st' = collector_numbers st ->
  resolver_inv st -> resolver_inv st'.
Proof.
  intros Hi Hc [Hl Hlast Hraw Hgr Hu].
  split; rewrite ?Hi, ?Hc; done.
Qed.

Lemma print_inv msg : preserves resolver_inv (print msg).
Proof. apply preserves_modify. intros st. by apply resolver_inv_frame. Qed.

Lemma sleep_inv n : preserves resolver_inv (sleep n).
Proof. apply preserves_modify. intros st. by apply resolver_inv_frame. Qed.

Lemma requests_get_json_inv w url :
  preserves resolver_inv (requests_get_json w url).
Proof.
  unfold requests_get_json. apply preserves_bind.
  - apply preserves_modify. intros st. by apply resolver_inv_frame.
  - intros _. destruct (api w url); [apply preserves_ret | apply preserves_raise].
Qed.

Lemma resolve_observation_inv w idno :
  preserves resolver_inv (resolve_observation w idno).
Proof.
  unfold resolve_observation.
  apply preserves_bind; [apply requests_get_json_inv | intros obs].
  apply preserves_bind_lift. intros col_num Hcn.
  apply preserves_bind.
  { apply preserves_for_each. intros photo _. by apply resolve_photo_inv. }
  intros _. apply preserves_bind; [apply sleep_inv | intros _].
  apply preserves_bind.
  { apply preserves_modify. intros st. by apply resolver_inv_frame. }
  intros _. apply preserves_bind; [apply preserves_gets | intros c].
  apply preserves_bind; [apply preserves_gets | intros n].
  apply preserves_if; [apply print_inv | apply preserves_ret].
Qed.

Lemma photo_resolver_inv w obs_ids :
  preserves resolver_inv (photo_resolver w obs_ids).
Proof.
  unfold photo_resolver.
  apply preserves_bind; [apply print_inv | intros _].
  apply preserves_bind.
  { apply preserves_for_each. intros idno _. apply resolve_observation_inv. }
  intros _. apply preserves_bind; [apply preserves_gets | intros c].
  apply preserves_bind; [apply preserves_gets | intros n].
  apply print_inv.
Qed.

Lemma resolved_inv w obs_ids d f :
  resolver_inv (photo_resolver w obs_ids (initial d f)).2.
Proof. apply photo_resolver_inv, resolver_inv_initial. Qed.

Lemma group_split cn (pre : list pydict) r post :
  in_group cn r ->
  group cn (pre ++ r :: post) = group cn pre ++ r :: group cn post.
Proof.
  intros Hr. unfold group. by rewrite filter_app, filter_cons_True.
Qed.

Lemma letters_lookup n k :
  (k < n)%nat -> letters n !! k = Some (Some (PStr (letter k))).
Proof.
  intros Hk. unfold letters. rewrite list_lookup_fmap.
  by rewrite lookup_seq_lt.
Qed.

(** The letter of a record is its rank in its group. *)
Lemma letter_by_rank st cn pre r post :
  resolver_inv st -> cn ≠ No_Collector_Number ->
  images st = pre ++ r :: post -> in_group cn r ->
  get r (str "photo_identifier") = Some (PStr (letter (length (group cn pre)))).
Proof.
  intros Hinv Hne Himgs Hr.
  pose proof (inv_letters st Hinv cn Hne) as Hl.
  rewrite Himgs, group_split in Hl by done.
  apply (f_equal (fun l => l !! length (group cn pre))) in Hl.
  unfold photo_identifiers in Hl.
  rewrite fmap_app, lookup_app_r in Hl by (by rewrite length_fmap).
  rewrite length_fmap, Nat.sub_diag in Hl. simpl in Hl.
  rewrite letters_lookup in Hl by (rewrite length_app; simpl; lia).
  congruence.
Qed.

Lemma NoDup_letters n : NoDup (letters n).
Proof.
  unfold letters. apply NoDup_fmap_2; [|apply NoDup_seq].
  intros i j [= H]. lia.
Qed.



(** ** The naming rule *)

Section Naming.
Context (w : world) (obs_ids : list pyval).
Context (d : gset pystr) (f : gmap pystr (list Z)).

Lemma resolved_in_group r :
  r ∈ resolved w obs_ids d f -> exists cn, in_group cn r.
Proof.
  intros Hr. pose proof (inv_grouped _ (resolved_inv w obs_ids d f)) as H.
  rewrite Forall_forall in H. by apply H.
Qed.

Lemma resolved_raw r :
  r ∈ resolved w obs_ids d f -> in_group No_Collector_Number r ->
  raw_identifier r.
Proof.
  intros Hr Hs. pose proof (inv_raw _ (resolved_inv w obs_ids d f)) as H.
  rewrite Forall_forall in H. apply H. unfold group.
  apply list_elem_of_filter. done.
Qed.

Lemma identifiers_are_letters cn :
  cn ≠ No_Collector_Number ->
  photo_identifiers (group cn (resolved w obs_ids d f))
  = letters (length (photo_identifiers (group cn (resolved w obs_ids d f)))).
Proof.
  intros Hne. unfold photo_identifiers at 2. rewrite length_fmap.
  by apply (inv_letters _ (resolved_inv w obs_ids d f)).
Qed.

End Naming.

(** C4.  In the records the Photo Resolver leaves behind, every record has
    a collector number.  If it is the sentinel "No_Collector_Number", the
    photo identifier is the value under the photo's own [id] key.  If not,
    the photo identifier is the letter whose rank is the number of earlier
    records with the same collector number: A for the first photo, and for
    every later photo the letter after the last one given out. *)
Theorem photo_identifier_rule (w : world) (obs_ids : list pyval)
    (d : gset pystr) (f : gmap pystr (list Z)) (pre post : list pydict)
    (r : pydict) :
  resolved w obs_ids d f = pre ++ r :: post ->
  exists cn, in_group cn r
    /\ (cn = No_Collector_Number ->
        is_Some (get r (str "id"))
        /\ get r (str "photo_identifier") = get r (str "id"))
    /\ (cn ≠ No_Collector_Number ->
        get r (str "photo_identifier")
        = Some (PStr (letter (length (group cn pre))))).
Proof.
  intros Himgs.
  assert (Hr : r ∈ resolved w obs_ids d f).
  { rewrite Himgs. apply elem_of_app. right. by left. }
  destruct (resolved_in_group _ _ _ _ _ Hr) as [cn Hcn].
  exists cn. split; [done|]. split.
  - intros ->. by apply (resolved_raw w obs_ids d f).
  - intros Hne.
    by apply (letter_by_rank _ cn pre r post (resolved_inv w obs_ids d f)).
Qed.

(** C5.  For a collector number other than the sentinel, the photo
    identifiers of its records, in the order of [images], are the letters
    A, B, C, ... one after the other; in particular a later record has a
    letter with a greater code point. *)
Theorem letters_in_encounter_order (w : world) (obs_ids : list pyval)
    (d : gset pystr) (f : gmap pystr (list Z)) (cn : pystr) :
  cn ≠ No_Collector_Number ->
  let ids := photo_identifiers (group cn (resolved w obs_ids d f)) in
  ids = letters (length ids)
  /\ forall i j x y, (i < j)%nat -> ids !! i = Some x -> ids !! j = Some y ->
       exists a b, x = Some (PStr [a]) /\ y = Some (PStr [b]) /\ a < b.
Proof.
  intros Hne ids.
  assert (Hids : ids = letters (length ids))
    by by apply identifiers_are_letters.
  split; [done|].
  intros i j x y Hij Hi Hj. rewrite Hids in Hi, Hj.
  pose proof (lookup_lt_Some _ _ _ Hj) as Hlen.
  unfold letters in Hlen. rewrite length_fmap, length_seq in Hlen.
  rewrite letters_lookup in Hi, Hj by lia.
  injection Hi as <-. injection Hj as <-.
  exists (65 + Z.of_nat i), (65 + Z.of_nat j).
  split; [done|]. split; [done|]. lia.
Qed.

(** ** File names of lettered records *)

Lemma image_name_lettered r cn k :
  in_group cn r ->
  get r (str "photo_identifier") = Some (PStr (letter k)) ->
  image_name_of r
  = str "images/" ++ cn ++ str "_" ++ letter k ++ str ".jpg".
Proof.
  unfold in_group, image_name_of. intros -> ->. done.
Qed.

Lemma lettered_name_inj cn1 cn2 k1 k2 :
  str "images/" ++ cn1 ++ str "_" ++ letter k1 ++ str ".jpg"
  = str "images/" ++ cn2 ++ str "_" ++ letter k2 ++ str ".jpg" ->
  cn1 = cn2 /\ k1 = k2.
Proof.
  intros H. apply app_inv_head in H.
  apply app_inj_2 in H as [Hcn Hrest]; [|done].
  split; [done|]. apply app_inv_head in Hrest.
  unfold letter in Hrest. injection Hrest. lia.
Qed.

(** C3, as the code has it.  Within a collector number other than the
    sentinel the photo identifiers are pairwise distinct, and so are the
    file names of all records with such collector numbers.  Within the
    sentinel group the photo identifiers are the raw [id] values of the
    photos, so they are distinct when those raw ids are. *)
Theorem identifiers_unique_where_lettered (w : world) (obs_ids : list pyval)
    (d : gset pystr) (f : gmap pystr (list Z)) :
  let imgs := resolved w obs_ids d f in
  (forall cn, cn ≠ No_Collector_Number ->
     NoDup (photo_identifiers (group cn imgs)))
  /\ (forall pre r1 mid r2 post cn1 cn2,
        imgs = pre ++ r1 :: mid ++ r2 :: post ->
        in_group cn1 r1 -> in_group cn2 r2 ->
        cn1 ≠ No_Collector_Number -> cn2 ≠ No_Collector_Number ->
        image_name_of r1 ≠ image_name_of r2)
  /\ (photo_identifiers (group No_Collector_Number imgs)
      = (fun r => get r (str "id")) <$> group No_Collector_Number imgs)
  /\ (NoDup ((fun r => get r (str "id")) <$> group No_Collector_Number imgs) ->
      NoDup (photo_identifiers (group No_Collector_Number imgs))).
Proof.
  intros imgs.
  pose proof (resolved_inv w obs_ids d f) as Hinv. fold imgs in Hinv.
  assert (Hraw : photo_identifiers (group No_Collector_Number imgs)
                 = (fun r => get r (str "id")) <$> group No_Collector_Number imgs).
  { unfold photo_identifiers. apply Forall_fmap_ext_1.
    eapply Forall_impl; [apply (inv_raw _ Hinv)|]. by intros r [_ Hr]. }
  split; [|split; [|split]].
  - intros cn Hne. unfold imgs. rewrite identifiers_are_letters by done.
    apply NoDup_letters.
  - intros pre r1 mid r2 post cn1 cn2 Himgs H1 H2 Hne1 Hne2 Hname.
    assert (Himgs' : imgs = (pre ++ r1 :: mid) ++ r2 :: post).
    { rewrite Himgs. by rewrite <- app_assoc. }
    pose proof (letter_by_rank _ cn1 pre r1 _ Hinv Hne1 Himgs H1) as Hl1.
    pose proof (letter_by_rank _ cn2 _ r2 post Hinv Hne2 Himgs' H2) as Hl2.
    rewrite (image_name_lettered r1 cn1 _ H1 Hl1) in Hname.
    rewrite (image_name_lettered r2 cn2 _ H2 Hl2) in Hname.
    apply lettered_name_inj in Hname as [<- Hk].
    rewrite group_split, length_app in Hk by done. simpl in Hk. lia.
  - done.
  - by rewrite Hraw.
Qed.

(** C2, as the code has it.  In every record [original_size_url] is
    [large_url] with every occurrence of "large" replaced by "original",
    which is the replacement of the first occurrence when there is at most
    one; a record without [large_url] has the empty string; and no record
    has a [large_url] that is not a string. *)
Theorem original_size_url_rule (w : world) (obs_ids : list pyval)
    (d : gset pystr) (f : gmap pystr (list Z)) (r : pydict) :
  r ∈ resolved w obs_ids d f ->
  (forall u, get r (str "large_url") = Some (PStr u) ->
     get r (str "original_size_url")
     = Some (PStr (replace (str "large") (str "original") u))
     /\ ((count_from (str "large") O u <= 1)%nat ->
         get r (str "original_size_url")
         = Some (PStr (replace_first (str "large") (str "original") u))))
  /\ (get r (str "large_url") = None ->
      get r (str "original_size_url") = Some (PStr (str "")))
  /\ (forall v, get r (str "large_url") = Some v -> exists u, v = PStr u).
Proof.
  intros Hr.
  pose proof (inv_url _ (resolved_inv w obs_ids d f)) as H.
  rewrite Forall_forall in H. specialize (H r Hr).
  unfold original_size_url_ok in H.
  destruct (get r (str "large_url")) as [[| | |u]|]; try done.
  split; [|split]; [|done|].
  - intros u' [= <-]. split; [done|]. intros Hn.
    rewrite <- replace_at_most_one; [done| |done].
    intros Hnil; vm_compute in Hnil; discriminate.
  - intros v [= <-]. eauto.
Qed.

(** Every resolved record has the three keys the Image Fetcher reads, so
    its defaults ("Unknown", [None]) are never used on such a record. *)
Lemma resolved_record_keys w obs_ids d f r :
  r ∈ resolved w obs_ids d f ->
  exists cn pid u,
    get r (str "collector_number") = Some (PStr cn)
    /\ get r (str "photo_identifier") = Some pid
    /\ get r (str "original_size_url") = Some (PStr u).
Proof.
  intros Hr. pose proof (resolved_inv w obs_ids d f) as Hinv.
  destruct (resolved_in_group _ _ _ _ _ Hr) as [cn Hcn].
  assert (Hurl : exists u, get r (str "original_size_url") = Some (PStr u)).
  { pose proof (inv_url _ Hinv) as Hu. rewrite Forall_forall in Hu.
    specialize (Hu r Hr). unfold original_size_url_ok in Hu.
    destruct (get r (str "large_url")) as [[]|]; try done; eauto. }
  destruct Hurl as [u Hu]. exists cn.
  destruct (decide (cn = No_Collector_Number)) as [->|Hne].
  - destruct (resolved_raw _ _ _ _ _ Hr Hcn) as [[v Hv] Hpid].
    exists v, u. rewrite Hpid. done.
  - apply list_elem_of_split in Hr as (pre & post & Himgs).
    eexists _, u. split; [done|]. split; [|done].
    by apply (letter_by_rank _ cn pre r post Hinv).
Qed.

(** Steps built from the basic ones keep a property that the basic ones
    keep. *)
Ltac preserves_step :=
  first
    [ apply preserves_ret
    | apply preserves_raise
    | apply preserves_lift
    | apply preserves_gets
    | apply preserves_bind; [|intros ?]
    | apply preserves_for_each; intros ? _
    | apply preserves_try_except
    | apply preserves_if
    | apply preserves_modify; intros ? ?; assumption ].

(** ** Where a file name leads *)

(** A character that does not occur in a literal. *)
Ltac not_in_literal :=
  let H := fresh in
  intros H; apply list_elem_of_In in H; vm_compute in H;
  repeat (destruct H as [H|H]; [discriminate H|]); exact H.

Lemma split_path_plain s : 47 ∉ s -> split_path s = [s].
Proof.
  induction s as [|c s IH]; [done|]. intros Hs.
  apply not_elem_of_cons in Hs as [Hc Hs]. cbn [split_path].
  rewrite decide_False by done. by rewrite IH.
Qed.

Lemma split_path_app s t :
  47 ∉ s -> split_path (s ++ 47 :: t) = s :: split_path t.
Proof.
  induction s as [|c s IH]; intros Hs.
  - cbn [app split_path]. by rewrite decide_True.
  - apply not_elem_of_cons in Hs as [Hc Hs]. cbn [app split_path].
    rewrite decide_False by done. by rewrite IH.
Qed.

Lemma split_path_not_nil s : split_path s ≠ [].
Proof.
  destruct s as [|c s]; [done|]. cbn [split_path].
  destruct (decide (c = 47)); [done|]. by destruct (split_path s).
Qed.

(** The last name of a path that ends with [t] ends with [t]. *)
Lemma last_split_path_app s t :
  47 ∉ t -> exists pre, last (split_path (s ++ t)) = Some (pre ++ t).
Proof.
  intros Ht. induction s as [|c s [pre IH]].
  - exists []. cbn [app]. by rewrite split_path_plain.
  - cbn [app split_path]. destruct (decide (c = 47)) as [->|Hc].
    + exists pre. rewrite <- IH.
      pose proof (split_path_not_nil (s ++ t)).
      by destruct (split_path (s ++ t)).
    + destruct (split_path (s ++ t)) as [|x [|y xs]]; [done| |].
      * injection IH as ->. by exists (c :: pre).
      * by exists pre.
Qed.

Lemma strip_prefix_app pre rel : strip_prefix pre (pre ++ rel) = Some rel.
Proof.
  induction pre as [|a pre IH]; [done|]. cbn [app strip_prefix].
  by rewrite decide_True.
Qed.

Lemma strip_prefix_refl l : strip_prefix l l = Some [].
Proof.
  induction l as [|a l IH]; [done|]. cbn [strip_prefix].
  by rewrite decide_True.
Qed.

Lemma strip_prefix_longer l x k : strip_prefix (l ++ x :: k) l = None.
Proof.
  induction l as [|a l IH]; [done|]. cbn [app strip_prefix].
  by rewrite decide_True.
Qed.

Lemma strip_prefix_Some pre l rel :
  strip_prefix pre l = Some rel -> l = pre ++ rel.
Proof.
  revert l. induction pre as [|a pre IH]; intros l.
  - by intros [= ->].
  - destruct l as [|b l]; [done|]. cbn [strip_prefix].
    destruct (decide (a = b)) as [->|]; [|done].
    intros H. by rewrite (IH _ H).
Qed.

Lemma join_path_snoc l b : exists pre, join_path (l ++ [b]) = pre ++ b.
Proof.
  destruct l as [|x l].
  - exists []. cbn. apply app_nil_r.
  - exists (x ++ concat ((fun y => 47 :: y) <$> l) ++ [47]).
    cbn [app join_path]. rewrite fmap_app, concat_app. cbn.
    rewrite app_nil_r, <- !app_assoc. done.
Qed.

Lemma endswith_app pre ext : endswith (pre ++ ext) ext = true.
Proof.
  unfold endswith. rewrite reverse_app.
  generalize (reverse pre). induction (reverse ext) as [|c l IH]; [done|].
  intros k. cbn [app startswith]. rewrite bool_decide_eq_true_2 by done. apply IH.
Qed.

Lemma endswith_app_assoc a b ext : endswith (a ++ b ++ ext) ext = true.
Proof. rewrite app_assoc. apply endswith_app. Qed.

Lemma key_of_last w ds dir base :
  is_dir w ds (dir ++ [base]) = false ->
  exists pre, key_of w (dir ++ [base]) = pre ++ base.
Proof.
  unfold is_dir, key_of. intros Hdir.
  destruct (strip_prefix (cwd w) (dir ++ [base])) as [rel|] eqn:Hrel.
  - apply strip_prefix_Some in Hrel.
    destruct rel as [|r rel _] using rev_ind.
    + rewrite app_nil_r in Hrel. rewrite Hrel in Hdir.
      by rewrite strip_prefix_refl in Hdir.
    + rewrite app_assoc in Hrel. apply app_inj_tail in Hrel as [_ <-].
      apply join_path_snoc.
  - destruct (join_path_snoc dir base) as [pre Hpre]. exists (47 :: pre).
    cbn [app]. by rewrite <- Hpre.
Qed.

(** A file that is opened has the last name of the path as its own. *)
Lemma open_target_last w ds fs filename key :
  open_target w ds fs filename = Ok key ->
  exists pre, key = pre ++ default [] (last (split_path filename)).
Proof.
  unfold open_target. intros H.
  repeat (case_match; try done); injection H as <-;
    by eapply key_of_last.
Qed.

Lemma image_name_last image :
  exists pre,
    last (split_path (image_name_of image)) = Some (pre ++ str ".jpg").
Proof.
  unfold image_name_of. rewrite !app_assoc.
  apply last_split_path_app. not_in_literal.
Qed.

(** Whatever the path, the file the fetcher opens for a record is a
    ".jpg". *)
Lemma open_target_jpg w ds fs image key :
  open_target w ds fs (image_name_of image) = Ok key ->
  endswith key (str ".jpg") = true.
Proof.
  intros H. apply open_target_last in H as [pre ->].
  destruct (image_name_last image) as [pre' ->]. cbn [default from_option].
  apply endswith_app_assoc.
Qed.

Lemma key_of_below w rel : key_of w (cwd w ++ rel) = join_path rel.
Proof. unfold key_of. by rewrite strip_prefix_app. Qed.

Lemma is_dir_below w ds x rel :
  is_dir w ds (cwd w ++ x :: rel) = bool_decide (join_path (x :: rel) ∈ ds).
Proof. unfold is_dir. by rewrite strip_prefix_longer, key_of_below. Qed.

(** The name of a record whose two parts are plain: the directory images
    and one name in it. *)
Lemma image_name_split image :
  plain (format (coll_no_of image)) ->
  plain (format (photo_iden_of image)) ->
  exists base,
    image_name_of image = join_path [str "images"; base]
    /\ split_path (image_name_of image) = [str "images"; base]
    /\ (0 ∉ image_name_of image)
    /\ base ≠ [] /\ base ≠ str "." /\ base ≠ str "..".
Proof.
  intros [Hcn Hcn0] [Hpid Hpid0].
  set (base := format (coll_no_of image) ++ str "_"
               ++ format (photo_iden_of image) ++ str ".jpg").
  assert (Hname : image_name_of image = str "images" ++ 47 :: base) by done.
  assert (Hlen : (5 <= length base)%nat).
  { unfold base. rewrite !length_app.
    change (length (str "_")) with 1%nat.
    change (length (str ".jpg")) with 4%nat. lia. }
  exists base. split; [|split; [|split; [|split; [|split]]]].
  - rewrite Hname. cbn. by rewrite app_nil_r.
  - rewrite Hname, split_path_app by not_in_literal.
    rewrite split_path_plain; [done|]. unfold base.
    rewrite !elem_of_app. intros [?|[?|[?|H]]]; [done| |done|];
      revert H; not_in_literal.
  - rewrite Hname. change (47 :: base) with ([47] ++ base). unfold base.
    rewrite !elem_of_app. intros [H|[H|[?|[H|[?|H]]]]]; try done;
      revert H; not_in_literal.
  - intros H. rewrite H in Hlen. cbn in Hlen. lia.
  - intros H. rewrite H in Hlen. vm_compute in Hlen. lia.
  - intros H. rewrite H in Hlen. vm_compute in Hlen. lia.
Qed.

(** When both parts of the name are plain, the directory images exists and
    nothing stands in the way, the file that is opened is the one named. *)
Lemma open_target_plain w ds fs image :
  str "images" ∈ ds ->
  plain (format (coll_no_of image)) ->
  plain (format (photo_iden_of image)) ->
  os_refuses w (image_name_of image) = None ->
  image_name_of image ∉ ds ->
  open_target w ds fs (image_name_of image) = Ok (image_name_of image).
Proof.
  intros Himages Hcn Hpid Hos Hfree.
  destruct (image_name_split image Hcn Hpid)
    as (base & Hname & Hsplit & H0 & Hb1 & Hb2 & Hb3).
  unfold open_target.
  rewrite bool_decide_eq_false_2 by done. rewrite Hos, Hsplit.
  rewrite bool_decide_eq_false_2
    by (rewrite Hname; cbn; by destruct (str "images")).
  replace (startswith [47] (image_name_of image)) with false by done.
  cbn [length Nat.pred take last walk default from_option id].
  rewrite (bool_decide_eq_false_2 (str "images" = [])) by done.
  rewrite (bool_decide_eq_false_2 (str "images" = str ".")) by str_neq.
  rewrite (bool_decide_eq_false_2 (str "images" = str "..")) by str_neq.
  cbn [orb]. rewrite is_dir_below.
  rewrite bool_decide_eq_true_2
    by (cbn [join_path fmap list_fmap concat]; by rewrite app_nil_r).
  rewrite !bool_decide_eq_false_2 by done. cbn [orb].
  rewrite <- app_assoc. cbn [app]. rewrite is_dir_below, key_of_below.
  rewrite Hname in Hfree |- *.
  by rewrite bool_decide_eq_false_2.
Qed.

(** ** The Image Fetcher *)

Lemma wanted_url_truthy image u :
  wanted_url image = Some u <->
  get image (str "original_size_url") = Some (PStr u) /\ u ≠ [].
Proof.
  unfold wanted_url.
  destruct (get image (str "original_size_url")) as [[| | |s]|];
    try (split; [done | by intros [? ?]]).
  destruct (decide (s = [])) as [->|Hne].
  - split; [done | intros [[= <-] ?]; done].
  - split; [intros [= <-]; done | intros [[= <-] ?]; done].
Qed.

(** A step is quiet when it ends normally and changes neither the records,
    nor the files, nor the downloads made so far. *)
Lemma quiet_ret {A} (a : A) : quiet (mret a).
Proof. intros st. by exists a, st. Qed.

Lemma quiet_gets {A} (g : state -> A) : quiet (gets g).
Proof. intros st. by exists (g st), st. Qed.

Lemma quiet_modify g :
  (forall st, view (g st) = view st) -> quiet (modify g).
Proof. intros Hg st. by exists tt, (g st). Qed.

Lemma quiet_bind {A B} (m : M A) (k : A -> M B) :
  quiet m -> (forall a, quiet (k a)) -> quiet (m ≫= k).
Proof.
  intros Hm Hk st. destruct (Hm st) as (a & st1 & Hrun & Hview).
  destruct (Hk a st1) as (b & st2 & Hrun' & Hview').
  exists b, st2. split; [|congruence].
  by rewrite (bind_ok _ _ _ _ _ Hrun).
Qed.

Lemma quiet_if {A} (b : bool) (m1 m2 : M A) :
  quiet m1 -> quiet m2 -> quiet (if b then m1 else m2).
Proof. by destruct b. Qed.

Lemma view_emit e st :
  is_retrieve e = false -> view (emit e st) = view st.
Proof.
  intros He. unfold view, emit. simpl. rewrite filter_app. f_equal.
  rewrite filter_cons_False, filter_nil; [apply app_nil_r|].
  rewrite He. by intros [].
Qed.

Lemma quiet_print msg : quiet (print msg).
Proof. apply quiet_modify. intros st. by apply view_emit. Qed.

Lemma quiet_sleep n : quiet (sleep n).
Proof. apply quiet_modify. intros st. by apply view_emit. Qed.

(** What follows the download in the loop body. *)
Lemma fetch_image_rest_quiet total :
  quiet (modify (set_image_counter (fun c => c + 1));;
         c ← gets image_counter;
         (if bool_decide (c `mod` 10 = 0)
          then print (str "Retrieved " ++ format (PInt c) ++ str " of "
                      ++ fmt_nat total ++ str " images")
          else mret tt);;
         sleep 1).
Proof.
  apply quiet_bind; [by apply quiet_modify | intros _].
  apply quiet_bind; [apply quiet_gets | intros c].
  apply quiet_bind; [|intros _; apply quiet_sleep].
  apply quiet_if; [apply quiet_print | apply quiet_ret].
Qed.

Lemma urlretrieve_run w u filename bytes key st :
  image_host w u = Some bytes ->
  open_target w (dirs st) (files st) filename = Ok key ->
  urlretrieve w (PStr u) filename st
  = (Ok tt, set_files <[key := bytes]> (emit (UrlRetrieve u filename) st)).
Proof.
  intros Hhost Hopen. unfold urlretrieve.
  erewrite bind_ok by reflexivity. rewrite Hhost.
  erewrite bind_ok by reflexivity. cbn [emit dirs files]. by rewrite Hopen.
Qed.

Lemma downloads_cons image imgs :
  downloads (image :: imgs)
  = match wanted_url image with
    | Some u => UrlRetrieve u (image_name_of image) :: downloads imgs
    | None => downloads imgs
    end.
Proof. unfold downloads. simpl. by destruct (wanted_url image). Qed.

Lemma written_cons w image imgs fs :
  written w (image :: imgs) fs
  = written w imgs
      match wanted_url image ≫= image_host w with
      | Some bytes => <[image_name_of image := bytes]> fs
      | None => fs
      end.
Proof. done. Qed.

(** The loop leaves the directories alone. *)
Lemma fetch_image_dirs w total image D :
  preserves (fun st => dirs st = D) (fetch_image w total image).
Proof.
  unfold fetch_image, urlretrieve, print, sleep. repeat preserves_step.
  case_match; repeat preserves_step. case_match; repeat preserves_step.
Qed.

Lemma image_name_not_images image : image_name_of image ≠ str "images".
Proof.
  unfold image_name_of. intros H.
  apply (f_equal (take 7)) in H. vm_compute in H. discriminate H.
Qed.

Lemma storable_mkdir w ds image :
  storable w ds image -> storable w ({[str "images"]} ∪ ds) image.
Proof.
  intros H Ht. destruct (H Ht) as (Hcn & Hpid & Hos & Hfree).
  split; [done|]. split; [done|]. split; [done|].
  intros [Hin|Hin]%elem_of_union; [|done].
  apply elem_of_singleton in Hin. by eapply image_name_not_images.
Qed.

(** One round of the loop, when the host answers and the file can be
    made. *)
Lemma fetch_image_run w total image st :
  str "images" ∈ dirs st ->
  served w image -> storable w (dirs st) image ->
  exists st',
    fetch_image w total image st = (Ok tt, st')
    /\ view st'
       = (images st, written w [image] (files st),
          filter is_retrieve (trace st) ++ downloads [image])
    /\ dirs st' = dirs st.
Proof.
  intros Himages Hserved Hstorable.
  cut (exists st',
         fetch_image w total image st = (Ok tt, st')
         /\ view st'
            = (images st, written w [image] (files st),
               filter is_retrieve (trace st) ++ downloads [image])).
  { intros (st' & Hrun & Hview). exists st'. split; [done|]. split; [done|].
    pose proof (fetch_image_dirs w total image (dirs st) st eq_refl) as Hdirs.
    by rewrite Hrun in Hdirs. }
  unfold fetch_image.
  destruct (truthy (default PNone (get image (str "original_size_url"))))
    eqn:Htruthy.
  - destruct (Hserved Htruthy) as (u & bytes & Hurl & Hhost).
    destruct (Hstorable Htruthy) as (Hcn & Hpid & Hos & Hfree).
    assert (Hwanted : wanted_url image = Some u).
    { apply wanted_url_truthy. split; [done|]. intros ->.
      by rewrite Hurl in Htruthy. }
    pose proof (open_target_plain w (dirs st) (files st) image
                  Himages Hcn Hpid Hos Hfree) as Hopen.
    rewrite Hurl. cbn [default from_option].
    erewrite bind_ok by (by apply urlretrieve_run).
    destruct (fetch_image_rest_quiet total
                (set_files <[image_name_of image := bytes]>
                   (emit (UrlRetrieve u (image_name_of image)) st)))
      as ([] & st' & -> & Hview).
    exists st'. split; [done|]. rewrite Hview.
    rewrite written_cons, downloads_cons, Hwanted.
    cbn [mbind option_bind]. rewrite Hhost.
    unfold view. cbn [set_files emit images files trace].
    by rewrite filter_app.
  - assert (Hwanted : wanted_url image = None).
    { destruct (wanted_url image) as [u|] eqn:E; [|done].
      apply wanted_url_truthy in E as [E Hne]. rewrite E in Htruthy.
      simpl in Htruthy. by rewrite bool_decide_eq_false_2 in Htruthy. }
    erewrite bind_ok by reflexivity.
    destruct (fetch_image_rest_quiet total st) as ([] & st' & -> & Hview).
    exists st'. split; [done|]. rewrite Hview.
    rewrite written_cons, downloads_cons, Hwanted.
    cbn [mbind option_bind]. unfold view. by rewrite app_nil_r.
Qed.

Lemma downloads_app l1 l2 : downloads (l1 ++ l2) = downloads l1 ++ downloads l2.
Proof. unfold downloads. apply omap_app. Qed.

(** The whole loop, when the host answers every request and every file
    can be made. *)
Lemma fetch_loop_run w total imgs st :
  str "images" ∈ dirs st ->
  Forall (served w) imgs -> Forall (storable w (dirs st)) imgs ->
  exists st',
    for_each (fetch_image w total) imgs st = (Ok tt, st')
    /\ view st'
       = (images st, written w imgs (files st),
          filter is_retrieve (trace st) ++ downloads imgs)
    /\ dirs st' = dirs st.
Proof.
  intros Himages Hserved. revert st Himages.
  induction Hserved as [|image imgs Himage _ IH]; intros st Himages Hstorable.
  - exists st. split; [done|]. split; [|done]. unfold view, downloads. simpl.
    by rewrite app_nil_r.
  - apply Forall_cons in Hstorable as [Hone Hrest].
    destruct (fetch_image_run w total image st Himages Himage Hone)
      as (st1 & Hrun & Hview & Hdirs).
    destruct (IH st1) as (st' & Hrun' & Hview' & Hdirs');
      [by rewrite Hdirs | by rewrite Hdirs |].
    exists st'. cbn [for_each]. split; [|split].
    + by rewrite (bind_ok _ _ _ _ _ Hrun).
    + rewrite Hview'. injection Hview as -> -> ->.
      change (image :: imgs) with ([image] ++ imgs).
      rewrite downloads_app, app_assoc. done.
    + congruence.
Qed.

(** The first lines of the stage: the directory is made, or found. *)
Lemma mkdir_block_run st :
  try_except
    (os_mkdir (str "images");; print (str "Created images directory."))
    FileExistsError
    (print (str "Images directory already exists, using existing images directory"))
    st
  = (Ok tt,
     if bool_decide (str "images" ∈ dirs st)
        || bool_decide (is_Some (files st !! str "images"))
     then emit (Print (str "Images directory already exists, using existing images directory")) st
     else emit (Print (str "Created images directory."))
            (emit (Mkdir (str "images"))
               (set_dirs (fun d => {[str "images"]} ∪ d) st))).
Proof.
  unfold try_except.
  destruct (bool_decide (str "images" ∈ dirs st)
            || bool_decide (is_Some (files st !! str "images"))) eqn:Hthere.
  - erewrite bind_raise.
    2:{ unfold os_mkdir. rewrite Hthere. reflexivity. }
    by rewrite decide_True.
  - erewrite bind_ok.
    2:{ unfold os_mkdir. rewrite Hthere. reflexivity. }
    done.
Qed.

Lemma mkdir_block_quiet :
  quiet (try_except
           (os_mkdir (str "images");; print (str "Created images directory."))
           FileExistsError
           (print (str "Images directory already exists, using existing images directory"))).
Proof.
  intros st. rewrite mkdir_block_run. eexists tt, _. split; [done|].
  case_match; [by apply view_emit|].
  rewrite view_emit by done. by rewrite view_emit.
Qed.

(** After these lines the directory images exists, unless a file has the
    name; the directories that can get in the way of a record are the
    same. *)
Lemma mkdir_block_dirs st :
  let st1 := (try_except
                (os_mkdir (str "images");; print (str "Created images directory."))
                FileExistsError
                (print (str "Images directory already exists, using existing images directory"))
                st).2 in
  (files st !! str "images" = None -> str "images" ∈ dirs st1)
  /\ (forall w image, storable w (dirs st) image -> storable w (dirs st1) image).
Proof.
  intros st1. unfold st1. rewrite mkdir_block_run. cbn [snd].
  destruct (bool_decide (str "images" ∈ dirs st)) eqn:Hdir; cbn [orb].
  - apply bool_decide_eq_true in Hdir. by split.
  - destruct (bool_decide (is_Some (files st !! str "images"))) eqn:Hfile.
    + apply bool_decide_eq_true in Hfile as [x Hx]. split; [|done].
      intros Hnone. by rewrite Hnone in Hx.
    + cbn [emit set_dirs dirs]. split; [intros _; set_solver|].
      intros w image. apply storable_mkdir.
Qed.

(** The stage, when nothing stands in the way. *)
Lemma image_fetcher_run w st :
  files st !! str "images" = None ->
  Forall (served w) (images st) ->
  Forall (storable w (dirs st)) (images st) ->
  exists st',
    image_fetcher w st = (Ok tt, st')
    /\ view st'
       = (images st, written w (images st) (files st),
          filter is_retrieve (trace st) ++ downloads (images st)).
Proof.
  intros Hfile Hserved Hstorable. unfold image_fetcher.
  destruct (mkdir_block_quiet st) as ([] & st1 & Hrun1 & Hview1).
  destruct (mkdir_block_dirs st) as [Himages Hkeep].
  rewrite Hrun1 in Himages, Hkeep. cbn [snd] in Himages, Hkeep.
  rewrite (bind_ok _ _ _ _ _ Hrun1).
  erewrite bind_ok by reflexivity.
  injection Hview1 as Himgs Hfiles Htrace. rewrite Himgs.
  set (n := length (images st)).
  destruct (quiet_print (str "Retrieving " ++ fmt_nat n ++ str " images") st1)
    as ([] & st2 & Hrun2 & Hview2).
  rewrite (bind_ok _ _ _ _ _ Hrun2).
  assert (Hdirs2 : dirs st2 = dirs st1) by (by injection Hrun2 as <-).
  injection Hview2 as Himgs2 Hfiles2 Htrace2.
  destruct (fetch_loop_run w n (images st) st2) as (st3 & Hrun3 & Hview3 & _).
  { rewrite Hdirs2. by apply Himages. }
  { done. }
  { rewrite Hdirs2. eapply Forall_impl; [exact Hstorable|].
    intros image. apply Hkeep. }
  rewrite (bind_ok _ _ _ _ _ Hrun3).
  destruct (quiet_print
              (str "Download complete, " ++ fmt_nat n ++ str " of "
               ++ fmt_nat n ++ str " images retrieved") st3)
    as ([] & st4 & Hrun4 & Hview4).
  exists st4. split; [done|]. rewrite Hview4, Hview3. congruence.
Qed.

(** C8, as the code has it.  The Image Fetcher goes through [images] in
    order.  For a record whose [original_size_url] is a string that is not
    empty it downloads that URL to
    "images/{collector_number}_{photo_identifier}.jpg"; a record whose
    [original_size_url] is missing, null or empty is passed over: no
    request, no file.  The name goes to the system as it is, so this is
    stated for records whose file can be made in the directory images: no
    regular file is named images, and for a record that is downloaded the
    collector number and the photo identifier have no "/" and no NUL, the
    system does not refuse the name and no directory has it; and for hosts
    that answer the requests made. *)
Theorem image_fetcher_downloads (w : world) (st : state) :
  files st !! str "images" = None ->
  Forall (served w) (images st) ->
  Forall (storable w (dirs st)) (images st) ->
  (exists st',
     image_fetcher w st = (Ok tt, st')
     /\ filter is_retrieve (trace st')
        = filter is_retrieve (trace st) ++ downloads (images st)
     /\ files st' = written w (images st) (files st))
  /\ (forall image u,
        wanted_url image = Some u <->
        get image (str "original_size_url") = Some (PStr u) /\ u ≠ [])
  /\ (forall image cn pid,
        get image (str "collector_number") = Some cn ->
        get image (str "photo_identifier") = Some pid ->
        image_name_of image
        = str "images/" ++ format cn ++ str "_" ++ format pid ++ str ".jpg").
Proof.
  intros Hfile Hserved Hstorable. split; [|split].
  - destruct (image_fetcher_run w st Hfile Hserved Hstorable)
      as (st' & Hrun & Hview).
    exists st'. split; [done|]. injection Hview as _ Hfiles Htrace.
    by split.
  - apply wanted_url_truthy.
  - intros image cn pid Hcn Hpid. unfold image_name_of.
    by rewrite Hcn, Hpid.
Qed.

(** ** What a run leaves on disk *)

Section File_store.
Context (P : gmap pystr (list Z) -> Prop).
Context (Hwrite : forall key bytes fs,
            endswith key (str ".jpg") = true -> P fs -> P (<[key := bytes]> fs)).

Lemma urlretrieve_keeps_files w url image :
  preserves (fun st => P (files st)) (urlretrieve w url (image_name_of image)).
Proof.
  intros st Hst. unfold urlretrieve. destruct url as [| | |u]; try done.
  erewrite bind_ok by reflexivity.
  destruct (image_host w u) as [bytes|]; [|done].
  erewrite bind_ok by reflexivity. cbn [emit dirs files].
  destruct (open_target w (dirs st) (files st) (image_name_of image))
    as [key|e] eqn:Hopen.
  - erewrite bind_ok by reflexivity. cbn [snd modify set_files files emit].
    apply Hwrite; [by eapply open_target_jpg | done].
  - erewrite bind_raise by reflexivity. done.
Qed.

(** A property of the file store that survives the writing of a ".jpg"
    survives a run. *)
Lemma main_keeps_files w : preserves (fun st => P (files st)) (main w).
Proof.
  unfold main, input_loader, read_csv, photo_resolver, resolve_observation,
    resolve_photo, retrieve_image_letter, requests_get_json, metadata_writer,
    image_fetcher, fetch_image, print, sleep.
  repeat preserves_step.
  - destruct (observations_csv w); repeat preserves_step.
  - destruct (api w _); repeat preserves_step.
  - destruct (decide _); repeat preserves_step.
  - intros st Hst. unfold os_mkdir. by case_match.
  - apply urlretrieve_keeps_files.
Qed.

End File_store.

(** No run creates or changes a file that is not a ".jpg". *)
Lemma other_files_untouched w d f path :
  endswith path (str ".jpg") = false ->
  files (run w d f).2 !! path = f !! path.
Proof.
  intros Hpath.
  apply (main_keeps_files (fun fs => fs !! path = f !! path)); [|done].
  intros key bytes fs Hkey Hfs. rewrite lookup_insert_ne; [done|].
  intros ->. congruence.
Qed.

(** No run creates or changes image_metadata.csv. *)
Lemma metadata_csv_untouched w d f :
  files (run w d f).2 !! str "image_metadata.csv"
  = f !! str "image_metadata.csv".
Proof. by apply other_files_untouched. Qed.

(** ** The Input Loader *)

Lemma input_loader_ok w t obs_ids st :
  observations_csv w = Some t -> column t (str "id") = Ok obs_ids ->
  input_loader w st = (Ok obs_ids, st).
Proof.
  intros Hcsv Hcol. unfold input_loader, try_except, read_csv.
  rewrite Hcsv. erewrite bind_ok by reflexivity. by rewrite Hcol.
Qed.

Lemma later_stages_keep_images w imgs :
  preserves (fun st => images st = imgs) (metadata_writer;; image_fetcher w).
Proof.
  unfold metadata_writer, image_fetcher, fetch_image, urlretrieve, print, sleep.
  repeat preserves_step.
  - intros st Hst. unfold os_mkdir. by case_match.
  - case_match; repeat preserves_step. case_match; repeat preserves_step.
Qed.

(** In a run whose input file has the [id] column, the records at the end
    are the ones the Photo Resolver left. *)
Lemma run_images w d f t obs_ids :
  observations_csv w = Some t -> column t (str "id") = Ok obs_ids ->
  images (run w d f).2 = resolved w obs_ids d f.
Proof.
  intros Hcsv Hcol. unfold run, main, resolved.
  rewrite (bind_ok _ _ _ _ _ (input_loader_ok w t obs_ids _ Hcsv Hcol)).
  destruct (photo_resolver w obs_ids (initial d f)) as [[[]|e] st1] eqn:Hres.
  - rewrite (bind_ok _ _ _ _ _ Hres).
    by apply (later_stages_keep_images w (images st1) st1).
  - by rewrite (bind_raise _ _ _ _ _ Hres).
Qed.

(** C7.  Without observations.csv the script prints its message and stops
    with [exit()]: the message is all it did, so there was no request to
    the API or to the image host, no directory was made and the files are
    as they were. *)
Theorem missing_input_halts (w : world) (d : gset pystr)
    (f : gmap pystr (list Z)) :
  observations_csv w = None ->
  run w d f
  = (Raise SystemExit,
     emit (Print (str "Could not find observations.csv. Program is now quitting."))
       (initial d f))
  /\ trace (run w d f).2
     = [Print (str "Could not find observations.csv. Program is now quitting.")]
  /\ filter is_request (trace (run w d f).2) = []
  /\ files (run w d f).2 = f
  /\ dirs (run w d f).2 = d
  /\ images_df (run w d f).2 = None.
Proof.
  intros Hcsv.
  assert (Hrun : run w d f
          = (Raise SystemExit,
             emit (Print (str "Could not find observations.csv. Program is now quitting."))
               (initial d f))).
  { unfold run, main.
    erewrite bind_raise; [done|].
    unfold input_loader.
    erewrite bind_raise; [done|].
    unfold try_except, read_csv. rewrite Hcsv. done. }
  rewrite Hrun. done.
Qed.

(** ** The Metadata Writer *)

Lemma columns_of_records_from acc records c :
  c ∈ foldl (fun acc r => acc ++ list_difference (keys r) acc) acc records
  <-> c ∈ acc \/ exists r, r ∈ records /\ c ∈ keys r.
Proof.
  revert acc. induction records as [|r records IH]; intros acc; simpl.
  - split; [by left|]. intros [?|(r & Hr & _)]; [done|].
    by apply elem_of_nil in Hr.
  - rewrite IH, elem_of_app, list_elem_of_difference. split.
    + intros [[?|[? ?]]|(r' & Hr' & Hc)]; [by left| |].
      * right. exists r. split; [by left | done].
      * right. exists r'. split; [by right | done].
    + intros [?|(r' & [->|Hr']%elem_of_cons & Hc)].
      * by left; left.
      * left. destruct (decide (c ∈ acc)); [by left | by right].
      * right. eauto.
Qed.

(** The columns of a frame are the keys that occur in some record. *)
Lemma columns_of_records records c :
  c ∈ columns (DataFrame_of_records records)
  <-> exists r, r ∈ records /\ is_Some (get r c).
Proof.
  unfold DataFrame_of_records. cbn [columns].
  rewrite columns_of_records_from. split.
  - intros [Hc|(r & Hr & Hc)]; [by apply elem_of_nil in Hc|].
    exists r. by rewrite get_in_keys.
  - intros (r & Hr & Hc). right. exists r. by rewrite <- get_in_keys.
Qed.

Lemma getitem_columns_ok df labels df' :
  getitem_columns df labels = Ok df' ->
  Forall (fun c => c ∈ columns df) labels
  /\ df' = {| columns := labels; rows := rows df |}.
Proof.
  unfold getitem_columns.
  destruct (forallb _ labels) eqn:Hall; [|done].
  intros [= <-]. split; [|done].
  apply Forall_forall. intros c Hc.
  rewrite forallb_forall in Hall.
  specialize (Hall c (proj1 (list_elem_of_In _ _) Hc)).
  by apply bool_decide_eq_true in Hall.
Qed.

(** With no record the frame of line 96 has no column, and the selection
    of line 97 raises: that frame is what stays in [images_df]. *)
Lemma metadata_writer_empty st :
  images st = [] ->
  metadata_writer st
  = (Raise KeyError, set_images_df {| columns := []; rows := [] |} st).
Proof.
  intros Himgs. unfold metadata_writer.
  erewrite bind_ok by reflexivity. rewrite Himgs.
  erewrite bind_ok by reflexivity.
  erewrite bind_raise; [done|]. done.
Qed.

Lemma metadata_writer_ok st st' :
  metadata_writer st = (Ok tt, st') ->
  exists df,
    getitem_columns (DataFrame_of_records (images st)) keep_columns = Ok df
    /\ st' = emit (Print (str "Image metadata outputted to image_metadata.csv"))
               (set_images_df (rename df rename_columns) st).
Proof.
  unfold metadata_writer. erewrite bind_ok by reflexivity.
  erewrite bind_ok by reflexivity.
  destruct (getitem_columns _ keep_columns) as [df|e] eqn:Hsel.
  - erewrite bind_ok by reflexivity. erewrite bind_ok by reflexivity.
    erewrite bind_ok by reflexivity.
    intros [= <-]. by exists df.
  - erewrite bind_raise by reflexivity. done.
Qed.


(** C9.  With no record in [images] the column selection raises
    [KeyError]: [images_df] is left with the frame without columns that
    line 96 made, and nothing is printed.  The selection only succeeds when
    every kept column is a key of some record.  A run over an input
    without observation ids ends in that [KeyError], with the empty frame
    in [images_df] and the files as they were. *)
Theorem empty_resolution_fails :
  (forall st, images st = [] ->
     metadata_writer st
     = (Raise KeyError, set_images_df {| columns := []; rows := [] |} st))
  /\ (forall st st', metadata_writer st = (Ok tt, st') ->
        forall c, c ∈ keep_columns ->
          exists r, r ∈ images st /\ is_Some (get r c))
  /\ (forall w d f t,
        observations_csv w = Some t -> column t (str "id") = Ok [] ->
        (run w d f).1 = Raise KeyError
        /\ images_df (run w d f).2 = Some {| columns := []; rows := [] |}
        /\ files (run w d f).2 = f).
Proof.
  split; [|split].
  - apply metadata_writer_empty.
  - intros st st' Hrun c Hc.
    apply metadata_writer_ok in Hrun as (df & Hsel & _).
    apply getitem_columns_ok in Hsel as [Hall _].
    rewrite Forall_forall in Hall. apply columns_of_records. by apply Hall.
  - intros w d f t Hcsv Hcol. unfold run, main.
    rewrite (bind_ok _ _ _ _ _ (input_loader_ok w t [] _ Hcsv Hcol)).
    unfold photo_resolver. cbn [for_each].
    repeat (erewrite bind_ok by reflexivity).
    erewrite bind_raise; [|by apply metadata_writer_empty].
    repeat split; reflexivity.
Qed.

Lemma renamed_header : columns (rename {| columns := keep_columns; rows := [] |}
                                  rename_columns) = metadata_header.
Proof. vm_compute. reflexivity. Qed.

(** When the writer ends normally, the frame it leaves in [images_df] has
    the 17 columns of section 6 and one row for each record. *)
Lemma metadata_table st st' :
  metadata_writer st = (Ok tt, st') ->
  images_df st'
  = Some {| columns := metadata_header;
            rows := seq 0 (length (images st)) |}
  /\ files st' = files st.
Proof.
  intros Hrun. apply metadata_writer_ok in Hrun as (df & Hsel & ->).
  apply getitem_columns_ok in Hsel as [Hall ->].
  split; [|done]. cbn [images_df emit set_images_df]. f_equal.
Qed.

(** C1, at observation 600.  The run ends normally.  The frame with the 17
    columns and one row is built and the script prints that the metadata
    went to image_metadata.csv, but no such file exists afterwards: the
    image is the only file the run made. *)
Theorem metadata_csv_is_not_written :
  let out := run (Sample.world_with [PInt 600]) ∅ ∅ in
  out.1 = Ok tt
  /\ (exists df, images_df out.2 = Some df
                 /\ columns df = metadata_header
                 /\ length (columns df) = 17%nat
                 /\ length (rows df) = 1%nat)
  /\ trace out.2 !! 4%nat
     = Some (Print (str "Image metadata outputted to image_metadata.csv"))
  /\ files out.2 !! str "image_metadata.csv" = None
  /\ map_to_list (files out.2)
     = [(str "images/No_Collector_Number_601.jpg", [255; 216; 255])].
Proof.
  intros out.
  assert (Hok : out.1 = Ok tt) by (vm_compute; reflexivity).
  split; [done|]. split; [|split; [|split]].
  - destruct (images_df out.2) as [df|] eqn:Hdf.
    + exists df. split; [done|]. revert Hdf. vm_compute.
      intros [= <-]. repeat split.
    + revert Hdf. vm_compute. discriminate.
  - vm_compute. reflexivity.
  - unfold out. rewrite metadata_csv_untouched. apply lookup_empty.
  - vm_compute. reflexivity.
Qed.

(** ** An empty collector number *)

Lemma empty_is_not_sentinel : str "" ≠ No_Collector_Number.
Proof. str_neq. Qed.

(** C10, as the code has it.  The raw-id branch is taken exactly when the
    extracted collector number is the sentinel text; for a matching entry
    with a string value that is when the value, spaces replaced, reads
    "No_Collector_Number".  An empty value gives the empty collector
    number, which is not the sentinel: the photo gets the next letter and
    its file is images/_A.jpg, images/_B.jpg, ... *)
Theorem empty_collector_number_is_lettered (obs : Observation)
    (pre post : list FieldValue) (field : FieldValue) :
  default [] (obs_observation_field_values obs) = pre ++ field :: post ->
  Forall (fun f => ¬ named_collector_number f) pre ->
  named_collector_number field ->
  (forall v, fv_value field = Some (PStr v) ->
     (retrieve_collector_number obs = Ok No_Collector_Number
      <-> spaces_to_underscores v = No_Collector_Number))
  /\ (fv_value field = Some (PStr (str "")) ->
      retrieve_collector_number obs = Ok (str "")
      /\ str "" ≠ No_Collector_Number
      /\ (forall photo st original l,
            replace_method
              (default (PStr (str ""))
                 (get (photo_fields photo) (str "large_url")))
              (str "large") (str "original") = Ok original ->
            next_letter (collector_numbers st !! str "") = Ok l ->
            resolve_photo obs (str "") photo st
            = (Ok tt,
               set_images
                 (fun imgs => imgs ++ [finished_record photo original (str "") (PStr l)])
                 (set_collector_numbers <[str "" := l]> st))
            /\ image_name_of (finished_record photo original (str "") (PStr l))
               = str "images/_" ++ l ++ str ".jpg")
      /\ (forall w obs_ids d f before r after,
            resolved w obs_ids d f = before ++ r :: after ->
            in_group (str "") r ->
            get r (str "photo_identifier")
            = Some (PStr (letter (length (group (str "") before))))
            /\ image_name_of r
               = str "images/_" ++ letter (length (group (str "") before))
                 ++ str ".jpg")).
Proof.
  intros Hfields Hpre Hnamed. split.
  - intros v Hv.
    rewrite (retrieve_collector_number_cases obs pre field post) by done.
    rewrite Hv. split; congruence.
  - intros Hv.
    assert (Hcn : retrieve_collector_number obs = Ok (str "")).
    { rewrite (retrieve_collector_number_cases obs pre field post) by done.
      by rewrite Hv. }
    split; [done|]. split; [apply empty_is_not_sentinel|]. split.
    + intros photo st original l Hurl Hl. split.
      * rewrite resolve_photo_run, Hurl, Hcn.
        rewrite decide_False by apply empty_is_not_sentinel.
        by rewrite Hl.
      * unfold image_name_of.
        by rewrite finished_record_collector_number,
          finished_record_photo_identifier.
    + intros w obs_ids d f before r after Himgs Hr.
      pose proof (letter_by_rank _ (str "") before r after
                    (resolved_inv w obs_ids d f) empty_is_not_sentinel
                    Himgs Hr) as Hl.
      split; [done|]. by rewrite (image_name_lettered r (str "") _ Hr Hl).
Qed.

(** * Instances *)

Lemma retrieve_collector_number_spec_witness :
  retrieve_collector_number Sample.obs200 = Ok (str "AB_12")
  /\ retrieve_collector_number Sample.obs100 = Ok No_Collector_Number.
Proof.
  split.
  - apply (proj1 (retrieve_collector_number_spec Sample.obs200)
             [] (Sample.collector_number_entry (str "AB 12")) [] (str "AB 12")).
    + reflexivity.
    + constructor.
    + reflexivity.
    + reflexivity.
  - apply (proj2 (proj2 (retrieve_collector_number_spec Sample.obs100))).
    reflexivity.
Defined.

Lemma photo_identifier_rule_witness :
  let imgs := Sample.records [PInt 100; PInt 200] in
  let r := default [] (imgs !! 2%nat) in
  imgs = take 2 imgs ++ r :: []
  /\ exists cn, in_group cn r
       /\ (cn = No_Collector_Number ->
           is_Some (get r (str "id"))
           /\ get r (str "photo_identifier") = get r (str "id"))
       /\ (cn ≠ No_Collector_Number ->
           get r (str "photo_identifier")
           = Some (PStr (letter (length (group cn (take 2 imgs)))))).
Proof.
  intros imgs r.
  assert (H : imgs = take 2 imgs ++ r :: []) by (vm_compute; reflexivity).
  split; [exact H|].
  exact (photo_identifier_rule
           (Sample.world_with [PInt 100; PInt 200]) [PInt 100; PInt 200] ∅ ∅
           (take 2 imgs) [] r H).
Defined.

Lemma letters_in_encounter_order_witness :
  str "AB_12" ≠ No_Collector_Number
  /\ let ids := photo_identifiers
                  (group (str "AB_12") (Sample.records [PInt 200; PInt 100; PInt 200])) in
     ids = letters (length ids)
     /\ forall i j x y, (i < j)%nat -> ids !! i = Some x -> ids !! j = Some y ->
          exists a b, x = Some (PStr [a]) /\ y = Some (PStr [b]) /\ a < b.
Proof.
  assert (H : str "AB_12" ≠ No_Collector_Number) by str_neq.
  split; [exact H|].
  exact (letters_in_encounter_order
           (Sample.world_with [PInt 200; PInt 100; PInt 200])
           [PInt 200; PInt 100; PInt 200] ∅ ∅ (str "AB_12") H).
Defined.

Lemma identifiers_unique_where_lettered_witness :
  str "AB_12" ≠ No_Collector_Number
  /\ NoDup (photo_identifiers
              (group (str "AB_12") (Sample.records [PInt 200; PInt 100; PInt 200]))).
Proof.
  assert (H : str "AB_12" ≠ No_Collector_Number) by str_neq.
  split; [exact H|].
  exact (proj1 (identifiers_unique_where_lettered
                  (Sample.world_with [PInt 200; PInt 100; PInt 200])
                  [PInt 200; PInt 100; PInt 200] ∅ ∅) (str "AB_12") H).
Defined.

(** The same observation twice: two records of the sentinel group with the
    same photo identifier, 555. *)
Lemma repeated_observation_counterexample :
  ¬ identifiers_unique_in_groups (Sample.records [PInt 100; PInt 100]).
Proof.
  intros H. specialize (H No_Collector_Number).
  vm_compute in H. apply NoDup_cons in H as [Hin _].
  apply Hin. left.
Qed.

Lemma original_size_url_rule_witness :
  let imgs := Sample.records [PInt 300] in
  let r := default [] (imgs !! 0%nat) in
  r ∈ imgs
  /\ get r (str "original_size_url")
     = Some (PStr (str "https://original.example/photos/7/original.jpg")).
Proof.
  intros imgs r.
  assert (H : r ∈ imgs) by (vm_compute; left).
  split; [exact H|].
  exact (proj1 (proj1 (original_size_url_rule
                         (Sample.world_with [PInt 300]) [PInt 300] ∅ ∅ r H)
                  (str "https://large.example/photos/7/large.jpg") eq_refl)).
Defined.

(** "large" occurs twice in the URL of photo 7, and both occurrences are
    replaced. *)
Lemma second_occurrence_counterexample :
  ¬ Forall first_occurrence_replaced (Sample.records [PInt 300]).
Proof.
  intros H.
  assert (Hr : default [] (Sample.records [PInt 300] !! 0%nat)
               ∈ Sample.records [PInt 300]) by (vm_compute; left).
  rewrite Forall_forall in H. specialize (H _ Hr).
  specialize (H (str "https://large.example/photos/7/large.jpg") eq_refl).
  vm_compute in H. discriminate H.
Qed.

Lemma missing_input_halts_witness :
  observations_csv Sample.missing_input = None
  /\ run Sample.missing_input ∅ ∅
     = (Raise SystemExit,
        emit (Print (str "Could not find observations.csv. Program is now quitting."))
          (initial ∅ ∅)).
Proof.
  split; [reflexivity|].
  exact (proj1 (missing_input_halts Sample.missing_input ∅ ∅ eq_refl)).
Defined.

Lemma image_fetcher_downloads_witness :
  let w := Sample.world_with [] in
  let st := Sample.two_records in
  files st !! str "images" = None
  /\ Forall (served w) (images st)
  /\ Forall (storable w (dirs st)) (images st)
  /\ exists st',
       image_fetcher w st = (Ok tt, st')
       /\ filter is_retrieve (trace st')
          = filter is_retrieve (trace st) ++ downloads (images st)
       /\ files st' = written w (images st) (files st).
Proof.
  intros w st.
  assert (Hfile : files st !! str "images" = None) by apply lookup_empty.
  assert (H : Forall (served w) (images st)).
  { repeat constructor.
    - intros _. eexists _, _. split; reflexivity.
    - intros Hempty. vm_compute in Hempty. discriminate Hempty. }
  assert (Hs : Forall (storable w (dirs st)) (images st)).
  { constructor; [|constructor; [|constructor]].
    - intros _. split; [split; not_in_literal|].
      split; [split; not_in_literal|].
      split; [reflexivity | apply not_elem_of_empty].
    - intros Hempty. vm_compute in Hempty. discriminate Hempty. }
  split; [exact Hfile|]. split; [exact H|]. split; [exact Hs|].
  exact (proj1 (image_fetcher_downloads w st Hfile H Hs)).
Defined.

Lemma empty_resolution_fails_witness :
  images (initial ∅ ∅) = []
  /\ metadata_writer (initial ∅ ∅)
     = (Raise KeyError,
        set_images_df {| columns := []; rows := [] |} (initial ∅ ∅)).
Proof.
  split; [reflexivity|].
  exact (proj1 empty_resolution_fails (initial ∅ ∅) eq_refl).
Defined.

Lemma empty_collector_number_is_lettered_witness :
  default [] (obs_observation_field_values Sample.obs500)
  = [] ++ Sample.collector_number_entry (str "") :: []
  /\ named_collector_number (Sample.collector_number_entry (str ""))
  /\ retrieve_collector_number Sample.obs500 = Ok (str "").
Proof.
  split; [reflexivity|]. split; [reflexivity|].
  exact (proj1 (proj2 (empty_collector_number_is_lettered Sample.obs500
                         [] [] (Sample.collector_number_entry (str ""))
                         eq_refl (Forall_nil_2 _) eq_refl) eq_refl)).
Defined.

(** Observation 400 has the field, with the value "No Collector Number":
    the extracted collector number is the sentinel and the photo identifier
    is the raw id 9. *)
Lemma sentinel_like_value_counterexample :
  ¬ fallback_only_when_absent Sample.obs400
  /\ photo_identifiers (Sample.records [PInt 400]) = [Some (PInt 9)].
Proof.
  split; [|vm_compute; reflexivity].
  intros H. apply H.
  - vm_compute. reflexivity.
  - apply Exists_cons_hd. reflexivity.
Qed.

(** Observation 800 has the Collector Number "AB/12".  The name of its
    image is images/AB/12_A.jpg; there is no directory images/AB, so the
    file cannot be opened: the run stops with [FileNotFoundError] after
    the host has answered, and no file is made. *)
Lemma slash_in_collector_number_counterexample :
  let w := Sample.world_of_collector_number 800 (str "AB/12") in
  ¬ every_answered_image_stored w ∅ ∅
  /\ (run w ∅ ∅).1 = Raise FileNotFoundError
  /\ image_name_of <$> images (run w ∅ ∅).2 = [str "images/AB/12_A.jpg"]
  /\ filter is_retrieve (trace (run w ∅ ∅).2)
     = [UrlRetrieve (str "https://static.example/photos/1/original.jpg")
          (str "images/AB/12_A.jpg")]
  /\ files (run w ∅ ∅).2 = ∅.
Proof.
  intros w.
  assert (Hfiles : files (run w ∅ ∅).2 = ∅) by (vm_compute; reflexivity).
  split; [|split; [|split; [|split]]]; try (vm_compute; reflexivity).
  intros H.
  assert (Hr : default [] (images (run w ∅ ∅).2 !! 0%nat)
               ∈ images (run w ∅ ∅).2) by (vm_compute; left).
  specialize (H _ (str "https://static.example/photos/1/original.jpg") Hr).
  rewrite Hfiles, lookup_empty in H.
  destruct H as [x Hx]; [vm_compute; reflexivity | by eexists | done].
Qed.

(** ** The examples of the specification *)

Example observation_100_file_name :
  image_name_of <$> Sample.records [PInt 100]
  = [str "images/No_Collector_Number_555.jpg"].
Proof. vm_compute. reflexivity. Qed.

Example observation_200_file_names :
  image_name_of <$> Sample.records [PInt 200]
  = [str "images/AB_12_A.jpg"; str "images/AB_12_B.jpg"].
Proof. vm_compute. reflexivity. Qed.

Example observation_500_file_names :
  image_name_of <$> Sample.records [PInt 500]
  = [str "images/_A.jpg"; str "images/_B.jpg"].
Proof. vm_compute. reflexivity. Qed.

Example observation_100_image_url :
  (fun r => get r (str "original_size_url")) <$> Sample.records [PInt 100]
  = [Some (PStr (str "https://static.example/photos/555/original.jpg"))].
Proof. vm_compute. reflexivity. Qed.

Example letters_after_Z :
  next_letter (Some (str "Z")) = Ok (str "[")
  /\ next_letter (Some [1114111]) = Raise ValueError.
Proof. split; reflexivity. Qed.

(** * More about the script *)

(** ** [retrieve_image_letter], call after call *)

Lemma retrieve_image_letter_other cn cn' st :
  cn ≠ cn' ->
  collector_numbers (retrieve_image_letter cn st).2 !! cn'
  = collector_numbers st !! cn'.
Proof.
  intros Hne. rewrite retrieve_image_letter_run.
  destruct (next_letter _) as [l|e]; [|done].
  simpl. by rewrite lookup_insert_ne.
Qed.

Lemma retrieve_image_letter_next cn st k :
  collector_numbers st !! cn = last_letter k -> Z.of_nat k <= 1114046 ->
  retrieve_image_letter cn st
  = (Ok (letter k), set_collector_numbers <[cn := letter k]> st).
Proof.
  intros Hcur Hk. rewrite retrieve_image_letter_run, Hcur.
  destruct k as [|k]; [done|]. unfold last_letter, letter, next_letter, chr.
  rewrite bool_decide_eq_true_2 by lia.
  by replace (65 + Z.of_nat k + 1) with (65 + Z.of_nat (S k)) by lia.
Qed.

Lemma letters_for_from cn n k st :
  collector_numbers st !! cn = last_letter k ->
  Z.of_nat k + Z.of_nat n <= 1114047 ->
  exists st',
    letters_for cn n st = (Ok (letter <$> seq k n), st')
    /\ collector_numbers st' !! cn = last_letter (k + n)
    /\ (forall cn', cn ≠ cn' ->
          collector_numbers st' !! cn' = collector_numbers st !! cn')
    /\ images st' = images st /\ trace st' = trace st /\ files st' = files st.
Proof.
  revert k st. induction n as [|n IH]; intros k st Hcur Hk.
  - exists st. rewrite Nat.add_0_r. done.
  - cbn [letters_for seq fmap list_fmap].
    rewrite (bind_ok _ _ _ _ _ (retrieve_image_letter_next cn st k Hcur ltac:(lia))).
    destruct (IH (S k) (set_collector_numbers <[cn := letter k]> st))
      as (st' & Hrun & Hlast & Hother & Himgs & Htrace & Hfiles).
    { simpl. by rewrite lookup_insert_eq. }
    { lia. }
    exists st'. rewrite (bind_ok _ _ _ _ _ Hrun). split; [done|].
    split; [by rewrite Hlast, Nat.add_succ_r|]. split; [|done].
    intros cn' Hne. rewrite Hother by done. simpl. by rewrite lookup_insert_ne.
Qed.

(** X1.  Called [n] times for a collector number that has no letter yet,
    [retrieve_image_letter] returns A, B, C, ... in this order, up to
    1114047 letters; afterwards the dictionary holds the last letter for
    this collector number and every other entry is as it was. *)
Theorem letters_for_fresh (cn : pystr) (n : nat) (st : state) :
  collector_numbers st !! cn = None -> Z.of_nat n <= 1114047 ->
  exists st',
    letters_for cn n st = (Ok (letter <$> seq 0 n), st')
    /\ collector_numbers st' !! cn = last_letter n
    /\ (forall cn', cn ≠ cn' ->
          collector_numbers st' !! cn' = collector_numbers st !! cn').
Proof.
  intros Hnone Hn.
  destruct (letters_for_from cn n 0 st Hnone Hn)
    as (st' & Hrun & Hlast & Hother & _).
  exists st'. done.
Qed.

Lemma letters_for_overflow cn n k st :
  collector_numbers st !! cn = last_letter k ->
  Z.of_nat k + Z.of_nat n = 1114047 ->
  (letters_for cn (S n) st).1 = Raise ValueError.
Proof.
  revert k st. induction n as [|n IH]; intros k st Hcur Hk.
  - cbn [letters_for]. erewrite bind_raise; [done|].
    rewrite retrieve_image_letter_run, Hcur.
    destruct k as [|k]; [lia|]. unfold last_letter, letter, next_letter, chr.
    by rewrite bool_decide_eq_false_2 by lia.
  - change (letters_for cn (S (S n)) st)
      with ((l ← retrieve_image_letter cn;
             ls ← letters_for cn (S n); mret (l :: ls)) st).
    rewrite (bind_ok _ _ _ _ _
               (retrieve_image_letter_next cn st k Hcur ltac:(lia))).
    specialize (IH (S k) (set_collector_numbers <[cn := letter k]> st)).
    destruct (letters_for cn (S n) _) as [[ls|e] st1] eqn:Hrest.
    + exfalso. cbn [fst] in IH. discriminate IH.
      * simpl. by rewrite lookup_insert_eq.
      * lia.
    + rewrite (bind_raise _ _ _ _ _ Hrest). cbn [fst] in *. apply IH.
      * simpl. by rewrite lookup_insert_eq.
      * lia.
Qed.

(** X2.  The letters run out at the last code point, U+10FFFF: when that
    is the letter stored for a collector number, the next call raises
    [ValueError] and changes nothing; so for a collector number that has
    no letter yet, the call number 1114048 is the one that raises. *)
Theorem letters_run_out (cn : pystr) (st : state) :
  (collector_numbers st !! cn = Some ([1114111] : pystr) ->
   retrieve_image_letter cn st = (Raise ValueError, st))
  /\ (collector_numbers st !! cn = None ->
      (letters_for cn (S (Z.to_nat 1114047)) st).1 = Raise ValueError).
Proof.
  split.
  - intros Hcur. by rewrite retrieve_image_letter_run, Hcur.
  - intros Hnone. apply (letters_for_overflow cn _ 0 st Hnone). lia.
Qed.

(** ** [retrieve_collector_number], edge cases *)

Lemma sentinel_has_no_space : 32 ∉ No_Collector_Number.
Proof.
  intros H. apply list_elem_of_In in H. vm_compute in H.
  repeat (destruct H as [H|H]; [discriminate H|]). done.
Qed.

Lemma spaces_to_underscores_no_space s : 32 ∉ spaces_to_underscores s.
Proof.
  unfold spaces_to_underscores. intros H.
  apply list_elem_of_fmap in H as (c & Hc & _).
  by destruct (decide (c = 32)).
Qed.

(** X3.  A collector number that [retrieve_collector_number] returns never
    contains a space. *)
Theorem collector_number_has_no_space (obs : Observation) (cn : pystr) :
  retrieve_collector_number obs = Ok cn -> 32 ∉ cn.
Proof.
  unfold retrieve_collector_number.
  induction (default [] (obs_observation_field_values obs))
    as [|field fields IH]; simpl.
  - intros [= <-]. apply sentinel_has_no_space.
  - destruct (is_collector_number_field field); [|done].
    destruct (fv_value field) as [[| | |s]|]; simpl; try done.
    + intros [= <-].
      change (32 ∉ Py.replace [32] [95] s). rewrite replace_char.
      apply spaces_to_underscores_no_space.
    + intros [= <-].
      change (32 ∉ Py.replace [32] [95] No_Collector_Number).
      rewrite replace_char. apply spaces_to_underscores_no_space.
Qed.

Lemma retrieve_with_fields fields :
  retrieve_collector_number (with_fields fields) = collector_number_in fields.
Proof. done. Qed.

(** X4.  For the first entry named "Collector Number": what comes after it
    in the list plays no part; if the entry has no [value] key the result
    is the sentinel; if its value is not a string the call raises
    [AttributeError]. *)
Theorem first_match_edge_cases (pre post post' : list FieldValue)
    (field : FieldValue) :
  Forall (fun f => ¬ named_collector_number f) pre ->
  named_collector_number field ->
  retrieve_collector_number (with_fields (pre ++ field :: post))
  = retrieve_collector_number (with_fields (pre ++ field :: post'))
  /\ (fv_value field = None ->
      retrieve_collector_number (with_fields (pre ++ field :: post))
      = Ok No_Collector_Number)
  /\ (forall v, fv_value field = Some v -> (forall s, v ≠ PStr s) ->
      retrieve_collector_number (with_fields (pre ++ field :: post))
      = Raise AttributeError).
Proof.
  intros Hpre Hnamed.
  rewrite !retrieve_with_fields, !collector_number_in_first_match by done.
  split; [done|]. split.
  - by intros ->.
  - intros v -> Hv. destruct v as [| | |s]; try done. by destruct (Hv s).
Qed.

(** ** One photo, seen from outside *)

Lemma get_snoc (d : pydict) k' v' k :
  get (d ++ [(k', v')]) k
  = match get d k with
    | Some v => Some v
    | None => if decide (k' = k) then Some v' else None
    end.
Proof.
  induction d as [|[k0 v0] d IH]; simpl; [done|].
  by destruct (decide (k0 = k)).
Qed.

Lemma get_setitem (d : pydict) k' v' k :
  get (setitem d k' v') k = if decide (k' = k) then Some v' else get d k.
Proof.
  destruct (decide (k' = k)) as [->|Hne].
  - apply get_setitem_eq.
  - by apply get_setitem_ne.
Qed.

(** [d.update(e)]: for a key of [e] the last value given in [e], for any
    other key what [d] had. *)
Lemma get_update (d e : pydict) k :
  get (update d e) k
  = match get (reverse e) k with
    | Some v => Some v
    | None => get d k
    end.
Proof.
  unfold update. revert d. induction e as [|[k' v'] e IH]; intros d; [done|].
  cbn [foldl]. rewrite IH, reverse_cons, get_snoc. cbn [fst snd].
  destruct (get (reverse e) k); [done|].
  rewrite get_setitem. by destruct (decide (k' = k)).
Qed.

Lemma keys_setitem (d : pydict) k v :
  keys (setitem d k v) = if decide (k ∈ keys d) then keys d else keys d ++ [k].
Proof.
  unfold keys. induction d as [|[k' v'] d IH]; [done|].
  cbn [setitem fmap list_fmap fst].
  destruct (decide (k' = k)) as [->|Hne]; cbn [fmap list_fmap fst].
  {
    rewrite decide_True; [done|]. by left. }
  rewrite IH. destruct (decide (k ∈ d.*1)) as [Hin|Hout].
  - rewrite decide_True; [done|]. by right.
  - rewrite decide_False; [done|].
    intros [?|?]%elem_of_cons; [congruence | done].
Qed.

Lemma NoDup_keys_setitem (d : pydict) k v :
  NoDup (keys d) -> NoDup (keys (setitem d k v)).
Proof.
  intros Hd. rewrite keys_setitem. destruct (decide (k ∈ keys d)); [done|].
  apply NoDup_app. split; [done|]. split; [|apply NoDup_singleton].
  intros x Hx ->%list_elem_of_singleton. done.
Qed.

Lemma NoDup_keys_update (d e : pydict) :
  NoDup (keys d) -> NoDup (keys (update d e)).
Proof.
  unfold update. revert d. induction e as [|[k v] e IH]; intros d Hd; [done|].
  cbn [foldl]. apply IH. by apply NoDup_keys_setitem.
Qed.

Lemma NoDup_keys_finished photo original cn v :
  NoDup (keys (finished_record photo original cn v)).
Proof.
  unfold finished_record, named_record, photo_fields.
  do 3 apply NoDup_keys_setitem. apply NoDup_keys_update.
  apply NoDup_singleton.
Qed.

Lemma get_photo_fields photo k :
  get (photo_fields photo) k
  = match photo_value photo k with
    | Some v => Some v
    | None =>
        if decide (str "observation_id" = k)
        then Some (default PNone (op_observation_id photo))
        else None
    end.
Proof. unfold photo_fields, photo_value. by rewrite get_update. Qed.

Lemma get_finished_other photo original cn v k :
  k ∉ derived_keys ->
  get (finished_record photo original cn v) k = get (photo_fields photo) k.
Proof.
  unfold derived_keys. intros Hk.
  unfold finished_record, named_record.
  rewrite !get_setitem_ne; [done| | |]; intros <-; apply Hk;
    repeat first [by left | right].
Qed.

(** The two ways in which the loop body can end. *)
Lemma resolve_photo_outcome obs col_num photo st :
  (exists e, resolve_photo obs col_num photo st = (Raise e, st))
  \/ (exists original cn v st',
        resolve_photo obs col_num photo st = (Ok tt, st')
        /\ images st' = images st ++ [finished_record photo original cn v]
        /\ retrieve_collector_number obs = Ok cn
        /\ trace st' = trace st /\ files st' = files st /\ dirs st' = dirs st
        /\ obs_counter st' = obs_counter st
        /\ image_counter st' = image_counter st
        /\ images_df st' = images_df st
        /\ (col_num = No_Collector_Number ->
            collector_numbers st' = collector_numbers st)).
Proof.
  rewrite resolve_photo_run.
  destruct (replace_method _ _ _) as [original|e]; [|left; eauto].
  destruct (retrieve_collector_number obs) as [cn|e]; [|left; eauto].
  destruct (decide (col_num = No_Collector_Number)) as [Hs|Hs].
  - destruct (get _ (str "id")) as [v|]; [|left; eauto].
    right. eexists original, cn, v, _. split; [done|]. by repeat split.
  - destruct (next_letter _) as [l|e]; [|left; eauto].
    right. eexists original, cn, (PStr l), _. split; [done|]. by repeat split.
Qed.

(** X5.  A pass of the photo loop either appends exactly one record and,
    besides the letter it may have taken, changes nothing else, or it
    raises and leaves the whole state as it was: no record and no letter
    used up. *)
Theorem resolve_photo_atomic (obs : Observation) (col_num : pystr)
    (photo : ObservationPhoto) (st : state) :
  let out := resolve_photo obs col_num photo st in
  match out.1 with
  | Raise _ => out.2 = st
  | Ok _ =>
      (exists r, images out.2 = images st ++ [r])
      /\ trace out.2 = trace st /\ files out.2 = files st
      /\ dirs out.2 = dirs st /\ obs_counter out.2 = obs_counter st
      /\ (col_num = No_Collector_Number ->
          collector_numbers out.2 = collector_numbers st)
  end.
Proof.
  intros out. unfold out.
  destruct (resolve_photo_outcome obs col_num photo st)
    as [[e ->]|(original & cn & v & st' & -> & Himgs & _ & ? & ? & ? & ? & _ & _ & ?)];
    simpl; [done|].
  split; [eauto|done].
Qed.

(** X6.  A photo object without an [id] key: under the sentinel the loop
    body raises [KeyError], since it reads [photo_data['id']]; under any
    other collector number the photo is resolved all the same, with the
    next letter. *)
Theorem photo_without_id (obs : Observation) (col_num original l : pystr)
    (photo : ObservationPhoto) (st : state) :
  photo_value photo (str "id") = None ->
  replace_method
    (default (PStr (str "")) (get (photo_fields photo) (str "large_url")))
    (str "large") (str "original") = Ok original ->
  retrieve_collector_number obs = Ok col_num ->
  next_letter (collector_numbers st !! col_num) = Ok l ->
  (col_num = No_Collector_Number ->
   resolve_photo obs col_num photo st = (Raise KeyError, st))
  /\ (col_num ≠ No_Collector_Number ->
      resolve_photo obs col_num photo st
      = (Ok tt,
         set_images
           (fun imgs => imgs ++ [finished_record photo original col_num (PStr l)])
           (set_collector_numbers <[col_num := l]> st))).
Proof.
  intros Hid Hurl Hcn Hl. rewrite resolve_photo_run, Hurl, Hcn. split.
  - intros Hs. rewrite decide_True by done.
    assert (Hnone : get (named_record photo original col_num) (str "id") = None).
    { unfold named_record. rewrite !get_setitem_ne by str_neq.
      rewrite get_photo_fields, Hid. by rewrite decide_False by str_neq. }
    by rewrite Hnone.
  - intros Hs. rewrite decide_False by done. by rewrite Hl.
Qed.

(** X7.  In the record that a pass appends, every key other than the three
    derived ones and [observation_id] has the value it has in the photo
    object (the last one, should the object repeat the key) and is missing
    if the object lacks it; [observation_id] is the photo object's own if
    it has one, else the one of the entry, else [None]. *)
Theorem photo_fields_pass_through (obs : Observation) (col_num : pystr)
    (photo : ObservationPhoto) (st st' : state) :
  resolve_photo obs col_num photo st = (Ok tt, st') ->
  exists r,
    images st' = images st ++ [r]
    /\ (forall k, k ∉ derived_keys -> k ≠ str "observation_id" ->
          get r k = photo_value photo k)
    /\ get r (str "observation_id")
       = Some (default (default PNone (op_observation_id photo))
                 (photo_value photo (str "observation_id"))).
Proof.
  intros Hrun.
  destruct (resolve_photo_outcome obs col_num photo st)
    as [[e He]|(original & cn & v & st1 & Hok & Himgs & _)];
    [congruence|].
  rewrite Hok in Hrun. injection Hrun as <-.
  eexists. split; [exact Himgs|]. split.
  - intros k Hk Hne. rewrite get_finished_other, get_photo_fields by done.
    destruct (photo_value photo k); [done|]. by rewrite decide_False.
  - rewrite get_finished_other, get_photo_fields.
    + destruct (photo_value photo (str "observation_id")); [done|].
      by rewrite decide_True.
    + unfold derived_keys. intros H. apply list_elem_of_In in H.
      vm_compute in H. repeat (destruct H as [H|H]; [discriminate H|]). done.
Qed.

(** ** The resolver as a whole *)

(** A property that only looks at [images] and [collector_numbers] and
    that every pass of the photo loop keeps, is kept by the resolver. *)
Lemma photo_resolver_keeps (P : state -> Prop) w obs_ids :
  (forall st st', images st' = images st ->
     collector_numbers st' = collector_numbers st -> P st -> P st') ->
  (forall obs col_num photo, preserves P (resolve_photo obs col_num photo)) ->
  preserves P (photo_resolver w obs_ids).
Proof.
  intros Hframe Hphoto.
  assert (Hmod : forall g, (forall st, images (g st) = images st) ->
                   (forall st, collector_numbers (g st) = collector_numbers st) ->
                   preserves P (modify g)).
  { intros g Hi Hc. apply preserves_modify. intros st. by apply Hframe. }
  unfold photo_resolver, resolve_observation, requests_get_json, print, sleep.
  repeat first
    [ apply Hphoto
    | apply Hmod; [done|done]
    | apply preserves_ret | apply preserves_raise | apply preserves_lift
    | apply preserves_gets
    | apply preserves_for_each; intros ? _
    | apply preserves_if
    | apply preserves_bind; [|intros ?] ].
  destruct (api w _); [apply preserves_ret | apply preserves_raise].
Qed.

Lemma resolved_are_finished w obs_ids d f r :
  r ∈ resolved w obs_ids d f ->
  exists photo original cn v, r = finished_record photo original cn v.
Proof.
  revert r. apply Forall_forall.
  apply (photo_resolver_keeps
           (fun st => Forall (fun r => exists photo original cn v,
                                 r = finished_record photo original cn v)
                        (images st))).
  - by intros st st' -> _.
  - intros obs col_num photo st Hst.
    destruct (resolve_photo_outcome obs col_num photo st)
      as [[e ->]|(original & cn & v & st' & -> & Himgs & _)]; [done|].
    cbn [snd]. rewrite Himgs.
    apply Forall_app. split; [done|]. apply Forall_singleton. eauto.
  - by apply Forall_nil.
Qed.

(** X8.  Every record the resolver leaves is a proper dictionary, no key
    twice, whatever the photo objects looked like; and it has the keys
    [observation_id], [original_size_url], [collector_number] and
    [photo_identifier]. *)
Theorem resolved_records_well_formed (w : world) (obs_ids : list pyval)
    (d : gset pystr) (f : gmap pystr (list Z)) (r : pydict) :
  r ∈ resolved w obs_ids d f ->
  NoDup (keys r)
  /\ Forall (fun k => is_Some (get r k))
       (str "observation_id" :: derived_keys).
Proof.
  intros Hr.
  destruct (resolved_are_finished _ _ _ _ _ Hr)
    as (photo & original & cn & v & ->).
  split; [apply NoDup_keys_finished|].
  repeat apply Forall_cons_2; [| | | |apply Forall_nil_2].
  - rewrite get_finished_other, get_photo_fields.
    + destruct (photo_value photo _); [done|]. by rewrite decide_True.
    + unfold derived_keys. intros H. apply list_elem_of_In in H.
      vm_compute in H. repeat (destruct H as [H|H]; [discriminate H|]). done.
  - by rewrite finished_record_original_size_url.
  - by rewrite finished_record_collector_number.
  - by rewrite finished_record_photo_identifier.
Qed.


(** ** Requests and pauses *)

Lemma filter_snoc_event (p : event -> bool) l e :
  filter p (l ++ [e]) = filter p l ++ (if p e then [e] else []).
Proof.
  rewrite filter_app. f_equal. destruct (p e) eqn:He.
  - rewrite filter_cons_True; [done|]. by rewrite He.
  - rewrite filter_cons_False; [done|]. rewrite He. by intros [].
Qed.

Lemma photo_loop_trace obs col_num photos st :
  trace (for_each (resolve_photo obs col_num) photos st).2 = trace st.
Proof.
  apply (preserves_for_each (fun st' => trace st' = trace st)); [|done].
  intros photo _ st1 Hst1.
  destruct (resolve_photo_outcome obs col_num photo st1)
    as [[e ->]|(original & cn & v & st' & -> & _ & _ & Htr & _)]; [done|].
  cbn [snd]. congruence.
Qed.

Lemma requests_get_json_run w url st :
  requests_get_json w url st
  = (match api w url with Some obs => Ok obs | None => Raise NetworkError end,
     emit (HttpGet url) st).
Proof.
  unfold requests_get_json. erewrite bind_ok by reflexivity.
  by destruct (api w url).
Qed.

(** One observation: the request, and the pause if nothing went wrong. *)
Lemma resolve_observation_pace w idno st :
  filter is_paced (trace (resolve_observation w idno st).2)
  = filter is_paced (trace st)
    ++ HttpGet (observation_url idno)
       :: match (resolve_observation w idno st).1 with
          | Ok _ => [Sleep 1]
          | Raise _ => []
          end.
Proof.
  unfold resolve_observation.
  pose proof (requests_get_json_run w (observation_url idno) st) as Hreq.
  set (st1 := emit (HttpGet (observation_url idno)) st) in Hreq.
  assert (Hst1 : filter is_paced (trace st1)
                 = filter is_paced (trace st) ++ [HttpGet (observation_url idno)]).
  { unfold st1. cbn [emit trace]. by rewrite filter_snoc_event. }
  destruct (api w (observation_url idno)) as [obs|].
  2:{ rewrite (bind_raise _ _ _ _ _ Hreq). cbn [fst snd]. by rewrite Hst1. }
  rewrite (bind_ok _ _ _ _ _ Hreq).
  destruct (retrieve_collector_number obs) as [col_num|e].
  2:{ erewrite bind_raise by reflexivity. cbn [fst snd]. by rewrite Hst1. }
  erewrite bind_ok by reflexivity.
  pose proof (photo_loop_trace obs col_num
                (default [] (obs_observation_photos obs)) st1) as Hloop.
  destruct (for_each _ _ st1) as [[[]|e] st2] eqn:Hrun; cbn [snd] in Hloop.
  - rewrite (bind_ok _ _ _ _ _ Hrun).
    unfold sleep, print. repeat (erewrite bind_ok by reflexivity).
    case_bool_decide; unfold mret, M_ret;
      cbn [fst snd modify emit trace set_obs_counter];
      rewrite ?filter_snoc_event, Hloop, Hst1; cbn [is_paced];
      by rewrite ?app_nil_r, <- ?app_assoc.
  - rewrite (bind_raise _ _ _ _ _ Hrun). cbn [fst snd]. by rewrite Hloop, Hst1.
Qed.

Lemma resolve_loop_pace w obs_ids st :
  exists l,
    filter is_paced (trace (for_each (resolve_observation w) obs_ids st).2)
    = filter is_paced (trace st) ++ l
    /\ l `prefix_of` paced obs_ids
    /\ ((for_each (resolve_observation w) obs_ids st).1 = Ok tt ->
        l = paced obs_ids).
Proof.
  revert st. induction obs_ids as [|idno obs_ids IH]; intros st.
  - exists []. by rewrite app_nil_r.
  - cbn [for_each].
    pose proof (resolve_observation_pace w idno st) as Hone.
    destruct (resolve_observation w idno st) as [[[]|e] st1] eqn:Hrun;
      cbn [fst snd] in Hone.
    + rewrite (bind_ok _ _ _ _ _ Hrun).
      destruct (IH st1) as (l & Hl & Hpre & Hall).
      exists ([HttpGet (observation_url idno); Sleep 1] ++ l).
      split; [by rewrite Hl, Hone, <- app_assoc|]. split.
      * by apply prefix_app.
      * intros Hok. by rewrite (Hall Hok).
    + rewrite (bind_raise _ _ _ _ _ Hrun).
      exists [HttpGet (observation_url idno)].
      split; [done|]. split; [|done].
      by exists (Sleep 1 :: paced obs_ids).
Qed.

(** X10.  The resolver asks the API for the observations in the order of
    the input and never for anything else, one request each, and after
    every observation it has dealt with it pauses for a second before the
    next request.  When it ends normally it has made all the requests;
    when it raises it has made a first part of them. *)
Theorem resolver_is_paced (w : world) (obs_ids : list pyval) (st : state) :
  exists l,
    filter is_paced (trace (photo_resolver w obs_ids st).2)
    = filter is_paced (trace st) ++ l
    /\ l `prefix_of` paced obs_ids
    /\ ((photo_resolver w obs_ids st).1 = Ok tt -> l = paced obs_ids).
Proof.
  unfold photo_resolver, print.
  erewrite bind_ok by reflexivity.
  set (st0 := emit _ st).
  destruct (resolve_loop_pace w obs_ids st0) as (l & Hl & Hpre & Hall).
  assert (Hst0 : filter is_paced (trace st0) = filter is_paced (trace st)).
  { unfold st0. cbn [emit trace]. rewrite filter_snoc_event.
    apply app_nil_r. }
  exists l. rewrite <- Hst0.
  destruct (for_each _ obs_ids st0) as [[[]|e] st1] eqn:Hrun;
    cbn [fst snd] in *.
  - rewrite (bind_ok _ _ _ _ _ Hrun).
    repeat (erewrite bind_ok by reflexivity).
    cbn [fst snd modify emit trace]. rewrite filter_snoc_event.
    cbn [is_paced]. rewrite app_nil_r. auto.
  - rewrite (bind_raise _ _ _ _ _ Hrun). cbn [fst snd]. auto.
Qed.

(** ** The input file *)

Lemma column_missing (t : csv_table) label :
  label ∉ t.*1 -> column t label = Raise KeyError.
Proof.
  induction t as [|[l vs] t IH]; [done|]. cbn [column fmap list_fmap fst].
  intros [Hne Hrest]%not_elem_of_cons.
  rewrite decide_False by done. by apply IH.
Qed.

(** X11.  An input file without a column named [id] ends the run with
    [KeyError] at once: nothing was printed, requested or written. *)
Theorem missing_id_column (w : world) (d : gset pystr)
    (f : gmap pystr (list Z)) (t : csv_table) :
  observations_csv w = Some t -> str "id" ∉ t.*1 ->
  run w d f = (Raise KeyError, initial d f).
Proof.
  intros Hcsv Hid. unfold run, main.
  erewrite bind_raise; [done|].
  unfold input_loader, try_except, read_csv. rewrite Hcsv.
  erewrite bind_ok by reflexivity. by rewrite column_missing.
Qed.

(** ** The metadata table *)

(** X12.  When every kept column is a key of at least one record, the
    Metadata Writer ends normally: it leaves in [images_df] the frame with
    the 17 renamed columns and one row for each record of [images], rows
    0, 1, 2, ...; it prints its one message and changes neither the
    records nor the files. *)
Theorem metadata_writer_builds_table (st : state) :
  (forall c, c ∈ keep_columns ->
     exists r, r ∈ images st /\ is_Some (get r c)) ->
  exists st',
    metadata_writer st = (Ok tt, st')
    /\ images_df st'
       = Some {| columns := metadata_header;
                 rows := seq 0 (length (images st)) |}
    /\ trace st'
       = trace st ++ [Print (str "Image metadata outputted to image_metadata.csv")]
    /\ images st' = images st
    /\ files st' = files st.
Proof.
  intros Hcols.
  assert (Hall : forallb (fun c => bool_decide
                            (c ∈ columns (DataFrame_of_records (images st))))
                   keep_columns = true).
  { apply forallb_forall. intros c Hc. apply bool_decide_eq_true.
    apply columns_of_records, Hcols. by apply list_elem_of_In. }
  destruct (metadata_writer st) as [[[]|e] st'] eqn:Hrun.
  - exists st'. split; [done|].
    destruct (metadata_table st st' Hrun) as [Hdf Hfiles].
    apply metadata_writer_ok in Hrun as (df & _ & ->). done.
  - exfalso. revert Hrun. unfold metadata_writer.
    erewrite bind_ok by reflexivity. erewrite bind_ok by reflexivity.
    unfold getitem_columns. rewrite Hall.
    repeat (erewrite bind_ok by reflexivity). done.
Qed.

(** ** What touches the disk, and when *)

Section Before_the_table.
Context (d : gset pystr) (f : gmap pystr (list Z)).

Local Abbreviation clean :=
  (fun st => images_df st = None /\ files st = f /\ dirs st = d
             /\ filter is_disk (trace st) = []).

Lemma clean_emit e st : is_disk e = false -> clean st -> clean (emit e st).
Proof.
  intros He (? & ? & ? & Htr). repeat split; try done.
  cbn [emit trace]. rewrite filter_snoc_event, He, Htr. done.
Qed.

Ltac clean_step :=
  first
    [ apply preserves_ret | apply preserves_raise | apply preserves_lift
    | apply preserves_gets
    | apply preserves_bind; [|intros ?]
    | apply preserves_for_each; intros ? _
    | apply preserves_try_except
    | apply preserves_if
    | apply preserves_modify; intros ? ?;
      first [assumption | apply clean_emit; [reflexivity|assumption]] ].

Lemma first_stages_clean w :
  preserves clean (obs_ids ← input_loader w; photo_resolver w obs_ids).
Proof.
  unfold input_loader, read_csv, photo_resolver, resolve_observation,
    resolve_photo, retrieve_image_letter, requests_get_json, print, sleep.
  repeat clean_step.
  - destruct (observations_csv w); repeat clean_step.
  - destruct (api w _); repeat clean_step.
  - destruct (decide _); repeat clean_step.
Qed.

Lemma image_fetcher_keeps_table w df :
  preserves (fun st => images_df st = Some df) (image_fetcher w).
Proof.
  unfold image_fetcher, fetch_image, urlretrieve, print, sleep.
  repeat preserves_step.
  - intros st Hst. unfold os_mkdir. by case_match.
  - case_match; repeat preserves_step. case_match; repeat preserves_step.
Qed.


End Before_the_table.

(** X14.  A run creates or changes no file but ".jpg" files: a file whose
    name does not end in ".jpg" is after the run what it was before,
    present or not; and no file is ever removed.  The names are the
    resolved ones, so this holds wherever the name of an image leads. *)
Theorem run_writes_only_jpg (w : world) (d : gset pystr)
    (f : gmap pystr (list Z)) (path : pystr) :
  (endswith path (str ".jpg") = false ->
   files (run w d f).2 !! path = f !! path)
  /\ (is_Some (f !! path) -> is_Some (files (run w d f).2 !! path)).
Proof.
  split.
  - apply other_files_untouched.
  - intros Hsome.
    apply (main_keeps_files (fun fs => is_Some (fs !! path))); [|done].
    intros key bytes fs _ Hfs.
    destruct (decide (key = path)) as [->|Hne].
    + rewrite lookup_insert_eq. eauto.
    + by rewrite lookup_insert_ne.
Qed.

(** X15.  The records are settled once the resolver is done: neither the
    Metadata Writer nor the Image Fetcher changes [images] or
    [collector_numbers], however they end. *)
Theorem records_fixed_after_resolver (w : world) (st : state) :
  images (metadata_writer st).2 = images st
  /\ images (image_fetcher w st).2 = images st
  /\ collector_numbers (metadata_writer st).2 = collector_numbers st
  /\ collector_numbers (image_fetcher w st).2 = collector_numbers st.
Proof.
  assert (Hw : forall (A : Type) (g : state -> A),
             preserves (fun st' => g st' = g st) (image_fetcher w) ->
             g (image_fetcher w st).2 = g st) by (intros A g H; by apply H).
  assert (Hm : forall (A : Type) (g : state -> A),
             preserves (fun st' => g st' = g st) metadata_writer ->
             g (metadata_writer st).2 = g st) by (intros A g H; by apply H).
  repeat split.
  - apply Hm. unfold metadata_writer, print. repeat preserves_step.
  - apply Hw. unfold image_fetcher, fetch_image, urlretrieve, print, sleep.
    repeat preserves_step.
    + intros st1 Hst1. unfold os_mkdir. by case_match.
    + case_match; repeat preserves_step. case_match; repeat preserves_step.
  - apply Hm. unfold metadata_writer, print. repeat preserves_step.
  - apply Hw. unfold image_fetcher, fetch_image, urlretrieve, print, sleep.
    repeat preserves_step.
    + intros st1 Hst1. unfold os_mkdir. by case_match.
    + case_match; repeat preserves_step. case_match; repeat preserves_step.
Qed.

(** ** A download that fails *)




(** ** The images directory *)

Section After_mkdir.
Context (D : gset pystr) (l : list event).

Local Abbreviation settled :=
  (fun st => dirs st = D /\ l `prefix_of` trace st).

Lemma settled_emit e st : settled st -> settled (emit e st).
Proof. intros [? ?]. split; [done|]. cbn [emit trace]. by apply prefix_app_r. Qed.

Lemma fetch_loop_settled w :
  preserves settled
    (imgs ← gets images;
     print (str "Retrieving " ++ fmt_nat (length imgs) ++ str " images");;
     for_each (fetch_image w (length imgs)) imgs;;
     print (str "Download complete, " ++ fmt_nat (length imgs) ++ str " of "
            ++ fmt_nat (length imgs) ++ str " images retrieved")).
Proof.
  unfold fetch_image, urlretrieve, print, sleep.
  repeat first
    [ apply preserves_ret | apply preserves_raise | apply preserves_lift
    | apply preserves_gets
    | apply preserves_bind; [|intros ?]
    | apply preserves_for_each; intros ? _
    | apply preserves_if
    | apply preserves_modify; intros ? ?;
      first [assumption | by apply settled_emit]
    | case_match ].
Qed.

End After_mkdir.

(** X17.  The Image Fetcher makes the directory "images" when nothing of
    that name exists, and says so; when a directory or a file of that name
    exists it makes nothing and says that the directory exists.  Whatever
    happens afterwards, no directory is made or removed. *)
Theorem images_directory (w : world) (st : state) :
  let st' := (image_fetcher w st).2 in
  if bool_decide (str "images" ∈ dirs st)
     || bool_decide (is_Some (files st !! str "images"))
  then dirs st' = dirs st
       /\ (trace st
           ++ [Print (str "Images directory already exists, using existing images directory")])
          `prefix_of` trace st'
  else dirs st' = {[str "images"]} ∪ dirs st
       /\ (trace st
           ++ [Mkdir (str "images"); Print (str "Created images directory.")])
          `prefix_of` trace st'.
Proof.
  intros st'. unfold st', image_fetcher.
  rewrite (bind_ok _ _ _ _ _ (mkdir_block_run st)).
  destruct (bool_decide (str "images" ∈ dirs st)
            || bool_decide (is_Some (files st !! str "images"))).
  - apply (fetch_loop_settled _ _ w). done.
  - apply (fetch_loop_settled _ _ w). split; [done|].
    cbn [emit trace set_dirs]. by rewrite <- app_assoc.
Qed.

(** ** Names that cannot collide *)

Lemma str_inj s1 s2 : str s1 = str s2 -> s1 = s2.
Proof.
  unfold str. intros H.
  assert (Hinj : Inj (=) (=) (fun a => Z.of_N (N_of_ascii a))).
  { intros a b Hab. apply N2Z.inj in Hab.
    by rewrite <- (ascii_N_embedding a), <- (ascii_N_embedding b), Hab. }
  apply (inj (fmap _)) in H.
  by rewrite <- (string_of_list_ascii_of_string s1),
    <- (string_of_list_ascii_of_string s2), H.
Qed.

(** X18.  Two different integer ids are asked for at two different URLs. *)
Theorem observation_url_inj (a b : Z) :
  observation_url (PInt a) = observation_url (PInt b) -> a = b.
Proof.
  unfold observation_url. intros H.
  apply app_inv_head, app_inv_tail in H. cbn [format] in H.
  apply str_inj in H. by apply (inj pretty).
Qed.

(** X19.  In the sentinel group, two records whose raw ids are different
    integers get different file names. *)
Theorem raw_id_file_names_differ (w : world) (obs_ids : list pyval)
    (d : gset pystr) (f : gmap pystr (list Z)) (r1 r2 : pydict) (a b : Z) :
  r1 ∈ resolved w obs_ids d f -> r2 ∈ resolved w obs_ids d f ->
  in_group No_Collector_Number r1 -> in_group No_Collector_Number r2 ->
  get r1 (str "id") = Some (PInt a) -> get r2 (str "id") = Some (PInt b) ->
  a ≠ b ->
  image_name_of r1 ≠ image_name_of r2.
Proof.
  intros Hr1 Hr2 Hg1 Hg2 Ha Hb Hne Hname. apply Hne.
  destruct (resolved_raw _ _ _ _ _ Hr1 Hg1) as [_ Hp1].
  destruct (resolved_raw _ _ _ _ _ Hr2 Hg2) as [_ Hp2].
  unfold image_name_of in Hname. unfold in_group in Hg1, Hg2.
  rewrite Hg1, Hg2, Hp1, Hp2, Ha, Hb in Hname.
  cbn [default from_option format] in Hname.
  do 3 apply app_inv_head in Hname. apply app_inv_tail in Hname.
  apply str_inj in Hname. by apply (inj pretty).
Qed.

(** X20.  A record whose [large_url] does not contain "large" has that
    same URL as [original_size_url]: it is the large image that will be
    downloaded. *)
Theorem url_without_large (w : world) (obs_ids : list pyval)
    (d : gset pystr) (f : gmap pystr (list Z)) (r : pydict) (u : pystr) :
  r ∈ resolved w obs_ids d f ->
  get r (str "large_url") = Some (PStr u) ->
  count_from (str "large") O u = O ->
  get r (str "original_size_url") = Some (PStr u)
  /\ (u ≠ [] -> wanted_url r = Some u).
Proof.
  intros Hr Hu Hcount.
  pose proof (inv_url _ (resolved_inv w obs_ids d f)) as H.
  rewrite Forall_forall in H. specialize (H r Hr).
  unfold original_size_url_ok in H. rewrite Hu in H.
  assert (Hsame : Py.replace (str "large") (str "original") u = u).
  { change (replace_from (str "large") (str "original") O u = u).
    by apply replace_from_no_occurrence. }
  rewrite Hsame in H. split; [done|].
  intros Hne. by apply wanted_url_truthy.
Qed.

(** ** A run that ends normally *)

Lemma input_loader_inv w st obs_ids st' :
  input_loader w st = (Ok obs_ids, st') ->
  st' = st
  /\ exists t, observations_csv w = Some t /\ column t (str "id") = Ok obs_ids.
Proof.
  assert (Hread :
    try_except (read_csv w) FileNotFoundError
      (print (str "Could not find observations.csv. Program is now quitting.");;
       raise SystemExit) st
    = match observations_csv w with
      | Some t => (Ok t, st)
      | None =>
          (Raise SystemExit,
           emit (Print (str "Could not find observations.csv. Program is now quitting."))
             st)
      end).
  { unfold try_except, read_csv. by destruct (observations_csv w). }
  unfold input_loader. destruct (observations_csv w) as [t|].
  - rewrite (bind_ok _ _ _ _ _ Hread). unfold lift. intros [= Hcol <-]. eauto.
  - by rewrite (bind_raise _ _ _ _ _ Hread).
Qed.

Lemma stored_cons w ds image imgs fs :
  stored w ds (image :: imgs) fs = stored w ds imgs (store_one w ds fs image).
Proof. done. Qed.

(** One round of the loop that ends normally: the host answered and the
    file was opened, or there was nothing to fetch. *)
Lemma fetch_image_ok w total image st st' :
  fetch_image w total image st = (Ok tt, st') ->
  served w image
  /\ view st'
     = (images st, store_one w (dirs st) (files st) image,
        filter is_retrieve (trace st) ++ downloads [image])
  /\ dirs st' = dirs st.
Proof.
  intros Hrun.
  pose proof (fetch_image_dirs w total image (dirs st) st eq_refl) as Hdirs.
  rewrite Hrun in Hdirs. cbn [snd] in Hdirs.
  cut (served w image
       /\ view st'
          = (images st, store_one w (dirs st) (files st) image,
             filter is_retrieve (trace st) ++ downloads [image])).
  { intros [? ?]. by repeat split. }
  revert Hrun. unfold fetch_image, store_one. rewrite downloads_cons.
  destruct (truthy (default PNone (get image (str "original_size_url"))))
    eqn:Htruthy.
  - destruct (get image (str "original_size_url")) as [url|] eqn:Hurl;
      [|done].
    change (default PNone (Some url)) with url in *.
    destruct url as [| | |u];
      try (erewrite bind_raise by reflexivity; discriminate).
    assert (Hwanted : wanted_url image = Some u).
    { apply wanted_url_truthy. split; [done|]. by intros ->. }
    rewrite Hwanted. cbn [mbind option_bind].
    destruct (image_host w u) as [bytes|] eqn:Hhost.
    2:{ erewrite bind_raise; [discriminate|].
        unfold urlretrieve. erewrite bind_ok by reflexivity.
        by rewrite Hhost. }
    destruct (open_target w (dirs st) (files st) (image_name_of image))
      as [key|e] eqn:Hopen.
    2:{ erewrite bind_raise; [discriminate|].
        unfold urlretrieve. erewrite bind_ok by reflexivity. rewrite Hhost.
        erewrite bind_ok by reflexivity. cbn [emit dirs files].
        rewrite Hopen. reflexivity. }
    erewrite bind_ok by (by apply urlretrieve_run).
    destruct (fetch_image_rest_quiet total
                (set_files <[key := bytes]>
                   (emit (UrlRetrieve u (image_name_of image)) st)))
      as ([] & st'' & -> & Hview).
    intros [= <-]. split.
    + intros _. eauto.
    + rewrite Hview. unfold view. cbn [set_files emit images files trace].
      by rewrite filter_app.
  - assert (Hwanted : wanted_url image = None).
    { destruct (wanted_url image) as [u|] eqn:E; [|done].
      apply wanted_url_truthy in E as [E Hne]. rewrite E in Htruthy.
      simpl in Htruthy. by rewrite bool_decide_eq_false_2 in Htruthy. }
    rewrite Hwanted. cbn [mbind option_bind].
    erewrite bind_ok by reflexivity.
    destruct (fetch_image_rest_quiet total st) as ([] & st'' & -> & Hview).
    intros [= <-]. split; [intros ?; congruence|].
    rewrite Hview. unfold view. by rewrite app_nil_r.
Qed.

Lemma fetch_loop_ok w total imgs st st' :
  for_each (fetch_image w total) imgs st = (Ok tt, st') ->
  Forall (served w) imgs
  /\ view st'
     = (images st, stored w (dirs st) imgs (files st),
        filter is_retrieve (trace st) ++ downloads imgs)
  /\ dirs st' = dirs st.
Proof.
  revert st. induction imgs as [|image imgs IH]; intros st.
  - cbn [for_each]. intros [= <-]. split; [done|]. split; [|done].
    unfold view, downloads. simpl. by rewrite app_nil_r.
  - cbn [for_each].
    destruct (fetch_image w total image st) as [[[]|e] st1] eqn:Hone.
    + rewrite (bind_ok _ _ _ _ _ Hone). intros Hrest.
      apply fetch_image_ok in Hone as (Hserved & Hview & Hdirs).
      apply IH in Hrest as (Hserved' & Hview' & Hdirs').
      split; [by constructor|]. split; [|congruence].
      rewrite Hview'. injection Hview as -> -> ->. rewrite Hdirs.
      rewrite stored_cons.
      change (image :: imgs) with ([image] ++ imgs).
      rewrite downloads_app, app_assoc. done.
    + by rewrite (bind_raise _ _ _ _ _ Hone).
Qed.

(** The stage, when it ends normally. *)
Lemma image_fetcher_ok w st st' :
  image_fetcher w st = (Ok tt, st') ->
  Forall (served w) (images st)
  /\ view st'
     = (images st, stored w (dirs st') (images st) (files st),
        filter is_retrieve (trace st) ++ downloads (images st)).
Proof.
  unfold image_fetcher.
  destruct (mkdir_block_quiet st) as ([] & st1 & Hrun1 & Hview1).
  rewrite (bind_ok _ _ _ _ _ Hrun1). erewrite bind_ok by reflexivity.
  injection Hview1 as Himgs Hfiles Htrace. rewrite Himgs.
  set (n := length (images st)).
  destruct (quiet_print (str "Retrieving " ++ fmt_nat n ++ str " images") st1)
    as ([] & st2 & Hrun2 & Hview2).
  rewrite (bind_ok _ _ _ _ _ Hrun2).
  injection Hview2 as Himgs2 Hfiles2 Htrace2.
  destruct (for_each (fetch_image w n) (images st) st2)
    as [[[]|e] st3] eqn:Hloop.
  2:{ by rewrite (bind_raise _ _ _ _ _ Hloop). }
  rewrite (bind_ok _ _ _ _ _ Hloop).
  apply fetch_loop_ok in Hloop as (Hserved & Hview3 & Hdirs3).
  intros [= <-]. split; [done|].
  rewrite view_emit by done. rewrite Hview3.
  cbn [emit dirs]. rewrite Hdirs3. congruence.
Qed.

(** X21.  A run that ends normally has gone through the four stages: the
    input file had an [id] column; the records are those the resolver made
    for its ids, and there is at least one; [images_df] holds the frame
    with the 17 columns and a row for each record; every request of a
    record was answered; the downloads made are those of the records, in
    order; and the files are the ones that were there and what these
    downloads wrote, each where its name led. *)
Theorem normal_run (w : world) (d : gset pystr) (f : gmap pystr (list Z)) :
  (run w d f).1 = Ok tt ->
  exists t obs_ids,
    observations_csv w = Some t
    /\ column t (str "id") = Ok obs_ids
    /\ images (run w d f).2 = resolved w obs_ids d f
    /\ resolved w obs_ids d f ≠ []
    /\ images_df (run w d f).2
       = Some {| columns := metadata_header;
                 rows := seq 0 (length (resolved w obs_ids d f)) |}
    /\ Forall (served w) (resolved w obs_ids d f)
    /\ filter is_retrieve (trace (run w d f).2)
       = downloads (resolved w obs_ids d f)
    /\ files (run w d f).2
       = stored w (dirs (run w d f).2) (resolved w obs_ids d f) f.
Proof.
  unfold run, main, resolved.
  pose proof (first_stages_clean d f w (initial d f)) as Hclean.
  destruct (input_loader w (initial d f)) as [[obs_ids|e] st0] eqn:Hin.
  2:{ by rewrite (bind_raise _ _ _ _ _ Hin). }
  rewrite (bind_ok _ _ _ _ _ Hin) in Hclean.
  rewrite (bind_ok _ _ _ _ _ Hin).
  apply input_loader_inv in Hin as (-> & t & Hcsv & Hcol).
  destruct (photo_resolver w obs_ids (initial d f)) as [[[]|e] st1] eqn:Hres.
  2:{ by rewrite (bind_raise _ _ _ _ _ Hres). }
  rewrite (bind_ok _ _ _ _ _ Hres).
  destruct Hclean as (_ & Hfiles1 & _ & Hdisk1); [done|]. cbn [snd] in *.
  destruct (metadata_writer st1) as [[[]|e] st2] eqn:Hwr.
  2:{ by rewrite (bind_raise _ _ _ _ _ Hwr). }
  rewrite (bind_ok _ _ _ _ _ Hwr).
  destruct (metadata_table st1 st2 Hwr) as [Hdf Hfiles2].
  assert (Hnonempty : images st1 ≠ []).
  { intros Hnil. rewrite (metadata_writer_empty st1 Hnil) in Hwr.
    discriminate Hwr. }
  apply metadata_writer_ok in Hwr as (df & _ & Hst2).
  assert (Himgs2 : images st2 = images st1) by (by rewrite Hst2).
  assert (Hret2 : filter is_retrieve (trace st2) = []).
  { rewrite Hst2. cbn [emit trace set_images_df].
    rewrite filter_snoc_event. cbn [is_retrieve]. rewrite app_nil_r.
    clear -Hdisk1. induction (trace st1) as [|e tr IH]; [done|].
    destruct e; cbn in Hdisk1 |- *; try (by apply IH); discriminate Hdisk1. }
  destruct (image_fetcher w st2) as [[[]|e] st3] eqn:Hfetch; [|done].
  intros _.
  pose proof (image_fetcher_ok _ _ _ Hfetch) as [Hserved Hview].
  injection Hview as Himgs3 Hfiles3 Htrace3.
  assert (Hdf3 : images_df st3 = images_df st2).
  { pose proof (image_fetcher_keeps_table w _ st2 Hdf) as H3.
    rewrite Hfetch in H3. cbn [snd] in H3. congruence. }
  exists t, obs_ids. cbn [snd].
  rewrite Himgs3, Hdf3, Htrace3, Hfiles3, Hret2, Himgs2, Hfiles2, Hfiles1.
  rewrite Himgs2 in Hserved.
  rewrite Hres. cbn [snd]. done.
Qed.

(** ** Names that lead out of the directory images *)

(** When a regular file is named images, no name of an image can be
    opened. *)
Lemma open_target_not_a_directory w ds fs image :
  str "images" ∉ ds -> is_Some (fs !! str "images") ->
  0 ∉ image_name_of image -> os_refuses w (image_name_of image) = None ->
  open_target w ds fs (image_name_of image) = Raise NotADirectoryError.
Proof.
  intros Hdir Hfile H0 Hos. unfold open_target.
  rewrite bool_decide_eq_false_2 by done. rewrite Hos.
  set (rest := format (coll_no_of image) ++ str "_"
               ++ format (photo_iden_of image) ++ str ".jpg").
  assert (Hname : image_name_of image = str "images" ++ 47 :: rest) by done.
  rewrite bool_decide_eq_false_2
    by (rewrite Hname; by destruct (str "images")).
  replace (startswith [47] (image_name_of image)) with false by done.
  rewrite Hname, split_path_app by not_in_literal.
  pose proof (split_path_not_nil rest) as Hrest.
  destruct (split_path rest) as [|x xs]; [done|].
  cbn [length Nat.pred take walk].
  rewrite (bool_decide_eq_false_2 (str "images" = [])) by done.
  rewrite (bool_decide_eq_false_2 (str "images" = str ".")) by str_neq.
  rewrite (bool_decide_eq_false_2 (str "images" = str "..")) by str_neq.
  cbn [orb]. rewrite is_dir_below.
  cbn [join_path fmap list_fmap concat]. rewrite app_nil_r.
  rewrite bool_decide_eq_false_2 by done.
  unfold is_file. rewrite key_of_below.
  cbn [join_path fmap list_fmap concat]. rewrite app_nil_r.
  by rewrite bool_decide_eq_true_2.
Qed.

(** X22.  When a regular file is named images, the stage says that the
    directory exists and goes on; the first download then fails with
    [NotADirectoryError], after the host has answered: no file and no
    directory is made, and the request is the last thing done. *)
Theorem images_is_a_regular_file (w : world) (st : state) (image : pydict)
    (rest : list pydict) (u : pystr) :
  images st = image :: rest ->
  str "images" ∉ dirs st -> is_Some (files st !! str "images") ->
  wanted_url image = Some u -> is_Some (image_host w u) ->
  0 ∉ image_name_of image -> os_refuses w (image_name_of image) = None ->
  exists st',
    image_fetcher w st = (Raise NotADirectoryError, st')
    /\ dirs st' = dirs st /\ files st' = files st
    /\ trace st'
       = trace st
         ++ [Print (str "Images directory already exists, using existing images directory");
             Print (str "Retrieving " ++ fmt_nat (length (images st))
                    ++ str " images");
             UrlRetrieve u (image_name_of image)].
Proof.
  intros Himgs Hdir Hfile Hwanted [bytes Hhost] H0 Hos.
  apply wanted_url_truthy in Hwanted as [Hurl Hne].
  assert (Ht : truthy (default PNone (get image (str "original_size_url")))
               = true).
  { rewrite Hurl. simpl. by rewrite bool_decide_eq_false_2. }
  unfold image_fetcher. rewrite (bind_ok _ _ _ _ _ (mkdir_block_run st)).
  rewrite (bool_decide_eq_false_2 (str "images" ∈ dirs st)) by done.
  rewrite bool_decide_eq_true_2 by done. cbn [orb].
  erewrite bind_ok by reflexivity. cbn [emit images]. rewrite Himgs.
  erewrite bind_ok by reflexivity. cbn [for_each].
  eexists. split.
  - erewrite bind_raise; [done|]. erewrite bind_raise; [done|].
    unfold fetch_image. rewrite Ht, Hurl.
    change (default PNone (Some (PStr u))) with (PStr u).
    erewrite bind_raise; [done|].
    unfold urlretrieve. erewrite bind_ok by reflexivity. rewrite Hhost.
    erewrite bind_ok by reflexivity. cbn [emit dirs files].
    rewrite open_target_not_a_directory by done. reflexivity.
  - cbn [emit dirs files trace]. rewrite <- !app_assoc. done.
Qed.

(** X23.  A collector number is put into the file name as it is.  With the
    Collector Number "../x" the name is images/../x_A.jpg: the run ends
    normally and its one file is x_A.jpg in the working directory, beside
    the directory images and not in it. *)
Theorem collector_number_leaves_images :
  let w := Sample.world_of_collector_number 900 (str "../x") in
  (run w ∅ ∅).1 = Ok tt
  /\ image_name_of <$> images (run w ∅ ∅).2 = [str "images/../x_A.jpg"]
  /\ map_to_list (files (run w ∅ ∅).2) = [(str "x_A.jpg", [255; 216; 255])]
  /\ elements (dirs (run w ∅ ∅).2) = [str "images"].
Proof. intros w. repeat split; vm_compute; reflexivity. Qed.

(** * Further instances *)

Lemma letters_for_fresh_witness :
  collector_numbers (initial ∅ ∅) !! str "AB_12" = None
  /\ Z.of_nat 3 <= 1114047
  /\ exists st',
       letters_for (str "AB_12") 3 (initial ∅ ∅)
       = (Ok (letter <$> seq 0 3), st')
       /\ collector_numbers st' !! str "AB_12" = last_letter 3
       /\ (forall cn', str "AB_12" ≠ cn' ->
             collector_numbers st' !! cn'
             = collector_numbers (initial ∅ ∅) !! cn').
Proof.
  assert (H1 : collector_numbers (initial ∅ ∅) !! str "AB_12" = None)
    by reflexivity.
  assert (H2 : Z.of_nat 3 <= 1114047) by lia.
  split; [exact H1|]. split; [exact H2|].
  exact (letters_for_fresh (str "AB_12") 3 (initial ∅ ∅) H1 H2).
Defined.

Lemma letters_run_out_witness :
  collector_numbers More.last_letter_state !! str "X"
  = Some ([1114111] : pystr)
  /\ retrieve_image_letter (str "X") More.last_letter_state
     = (Raise ValueError, More.last_letter_state).
Proof.
  assert (H : collector_numbers More.last_letter_state !! str "X"
              = Some ([1114111] : pystr)) by (vm_compute; reflexivity).
  split; [exact H|].
  exact (proj1 (letters_run_out (str "X") More.last_letter_state) H).
Defined.

Lemma collector_number_has_no_space_witness :
  retrieve_collector_number Sample.obs200 = Ok (str "AB_12")
  /\ 32 ∉ str "AB_12".
Proof.
  assert (H : retrieve_collector_number Sample.obs200 = Ok (str "AB_12"))
    by reflexivity.
  split; [exact H|].
  exact (collector_number_has_no_space Sample.obs200 (str "AB_12") H).
Defined.

Lemma first_match_edge_cases_witness :
  named_collector_number More.valueless_entry
  /\ retrieve_collector_number
       (with_fields ([] ++ More.valueless_entry
                        :: [Sample.collector_number_entry (str "AB 12")]))
     = Ok No_Collector_Number.
Proof.
  assert (H : named_collector_number More.valueless_entry) by reflexivity.
  split; [exact H|].
  exact (proj1 (proj2 (first_match_edge_cases [] _ [] More.valueless_entry
                         (Forall_nil_2 _) H)) eq_refl).
Defined.

Lemma photo_without_id_witness :
  let obs := with_fields [Sample.collector_number_entry (str "AB 12")] in
  photo_value More.bare_photo (str "id") = None
  /\ retrieve_collector_number obs = Ok (str "AB_12")
  /\ resolve_photo obs (str "AB_12") More.bare_photo (initial ∅ ∅)
     = (Ok tt,
        set_images
          (fun imgs => imgs ++ [finished_record More.bare_photo (str "")
                                  (str "AB_12") (PStr (str "A"))])
          (set_collector_numbers <[str "AB_12" := str "A"]> (initial ∅ ∅))).
Proof.
  intros obs.
  assert (H1 : photo_value More.bare_photo (str "id") = None) by reflexivity.
  assert (H2 : retrieve_collector_number obs = Ok (str "AB_12"))
    by reflexivity.
  split; [exact H1|]. split; [exact H2|].
  refine (proj2 (photo_without_id obs (str "AB_12") (str "") (str "A")
                   More.bare_photo (initial ∅ ∅) H1 _ H2 _) _).
  - reflexivity.
  - reflexivity.
  - str_neq.
Defined.

Lemma photo_fields_pass_through_witness :
  let obs := with_fields [Sample.collector_number_entry (str "AB 12")] in
  let out := resolve_photo obs (str "AB_12") More.odd_photo (initial ∅ ∅) in
  out = (Ok tt, out.2)
  /\ exists r,
       images out.2 = images (initial ∅ ∅) ++ [r]
       /\ (forall k, k ∉ derived_keys -> k ≠ str "observation_id" ->
             get r k = photo_value More.odd_photo k)
       /\ get r (str "observation_id")
          = Some (default (default PNone (op_observation_id More.odd_photo))
                    (photo_value More.odd_photo (str "observation_id"))).
Proof.
  intros obs out.
  assert (H : out = (Ok tt, out.2)) by (vm_compute; reflexivity).
  split; [exact H|].
  exact (photo_fields_pass_through obs (str "AB_12") More.odd_photo
           (initial ∅ ∅) out.2 H).
Defined.

Lemma resolved_records_well_formed_witness :
  let imgs := Sample.records [PInt 200] in
  let r := default [] (imgs !! 1%nat) in
  r ∈ imgs
  /\ NoDup (keys r)
  /\ Forall (fun k => is_Some (get r k)) (str "observation_id" :: derived_keys).
Proof.
  intros imgs r.
  assert (H : r ∈ imgs) by (vm_compute; right; left).
  split; [exact H|].
  exact (resolved_records_well_formed
           (Sample.world_with [PInt 200]) [PInt 200] ∅ ∅ r H).
Defined.

Lemma missing_id_column_witness :
  observations_csv More.no_id_column = Some [(str "name", [PStr (str "oak")])]
  /\ (str "id" ∉ (fst <$> [(str "name", [PStr (str "oak")])]))
  /\ run More.no_id_column ∅ ∅ = (Raise KeyError, initial ∅ ∅).
Proof.
  assert (H : str "id" ∉ (fst <$> [(str "name", [PStr (str "oak")])])).
  { apply not_elem_of_cons. split; [str_neq | apply not_elem_of_nil]. }
  split; [reflexivity|]. split; [exact H|].
  exact (missing_id_column More.no_id_column ∅ ∅ _ eq_refl H).
Defined.

Lemma metadata_writer_builds_table_witness :
  (forall c, c ∈ keep_columns ->
     exists r, r ∈ images More.one_full_record /\ is_Some (get r c))
  /\ exists st',
       metadata_writer More.one_full_record = (Ok tt, st')
       /\ images_df st'
          = Some {| columns := metadata_header;
                    rows := seq 0 (length (images More.one_full_record)) |}
       /\ trace st'
          = trace More.one_full_record
            ++ [Print (str "Image metadata outputted to image_metadata.csv")]
       /\ images st' = images More.one_full_record
       /\ files st' = files More.one_full_record.
Proof.
  assert (H : forall c, c ∈ keep_columns ->
                exists r, r ∈ images More.one_full_record /\ is_Some (get r c)).
  { intros c Hc. exists More.full_record. split; [by left|].
    revert c Hc. apply Forall_forall. vm_compute.
    repeat (apply Forall_cons_2; [eexists; reflexivity|]). apply Forall_nil_2. }
  split; [exact H|].
  exact (metadata_writer_builds_table More.one_full_record H).
Defined.


Lemma run_writes_only_jpg_witness :
  let f : gmap pystr (list Z) := {[ str "notes.txt" := [110; 98] ]} in
  endswith (str "notes.txt") (str ".jpg") = false
  /\ files (run (Sample.world_with [PInt 600]) ∅ f).2 !! str "notes.txt"
     = f !! str "notes.txt".
Proof.
  intros f.
  assert (H : endswith (str "notes.txt") (str ".jpg") = false)
    by reflexivity.
  split; [exact H|].
  exact (proj1 (run_writes_only_jpg (Sample.world_with [PInt 600]) ∅ f
                  (str "notes.txt")) H).
Defined.


Lemma observation_url_inj_witness :
  observation_url (PInt 600) = observation_url (PInt (500 + 100))
  /\ 600 = 500 + 100.
Proof.
  assert (H : observation_url (PInt 600) = observation_url (PInt (500 + 100)))
    by reflexivity.
  split; [exact H|].
  exact (observation_url_inj 600 (500 + 100) H).
Defined.

Lemma raw_id_file_names_differ_witness :
  let imgs := Sample.records [PInt 100; PInt 600] in
  let r1 := default [] (imgs !! 0%nat) in
  let r2 := default [] (imgs !! 1%nat) in
  r1 ∈ imgs /\ r2 ∈ imgs
  /\ get r1 (str "id") = Some (PInt 555) /\ get r2 (str "id") = Some (PInt 601)
  /\ image_name_of r1 ≠ image_name_of r2.
Proof.
  intros imgs r1 r2.
  assert (H1 : r1 ∈ imgs) by (vm_compute; left).
  assert (H2 : r2 ∈ imgs) by (vm_compute; right; left).
  assert (Ha : get r1 (str "id") = Some (PInt 555)) by (vm_compute; reflexivity).
  assert (Hb : get r2 (str "id") = Some (PInt 601)) by (vm_compute; reflexivity).
  split; [exact H1|]. split; [exact H2|]. split; [exact Ha|]. split; [exact Hb|].
  refine (raw_id_file_names_differ
            (Sample.world_with [PInt 100; PInt 600]) [PInt 100; PInt 600] ∅ ∅
            r1 r2 555 601 H1 H2 _ _ Ha Hb _).
  - vm_compute. reflexivity.
  - vm_compute. reflexivity.
  - lia.
Defined.

Lemma url_without_large_witness :
  let imgs := resolved More.world_700 [PInt 700] ∅ ∅ in
  let r := default [] (imgs !! 0%nat) in
  let u := str "https://static.example/photos/8/medium.jpg" in
  r ∈ imgs
  /\ get r (str "large_url") = Some (PStr u)
  /\ count_from (str "large") O u = O
  /\ get r (str "original_size_url") = Some (PStr u).
Proof.
  intros imgs r u.
  assert (H1 : r ∈ imgs) by (vm_compute; left).
  assert (H2 : get r (str "large_url") = Some (PStr u))
    by (vm_compute; reflexivity).
  assert (H3 : count_from (str "large") O u = O) by (vm_compute; reflexivity).
  split; [exact H1|]. split; [exact H2|]. split; [exact H3|].
  exact (proj1 (url_without_large More.world_700 [PInt 700] ∅ ∅ r u H1 H2 H3)).
Defined.

Lemma normal_run_witness :
  (run (Sample.world_with [PInt 600]) ∅ ∅).1 = Ok tt
  /\ exists t obs_ids,
       observations_csv (Sample.world_with [PInt 600]) = Some t
       /\ column t (str "id") = Ok obs_ids
       /\ images (run (Sample.world_with [PInt 600]) ∅ ∅).2
          = resolved (Sample.world_with [PInt 600]) obs_ids ∅ ∅
       /\ resolved (Sample.world_with [PInt 600]) obs_ids ∅ ∅ ≠ []
       /\ images_df (run (Sample.world_with [PInt 600]) ∅ ∅).2
          = Some {| columns := metadata_header;
                    rows := seq 0 (length (resolved (Sample.world_with [PInt 600])
                                             obs_ids ∅ ∅)) |}
       /\ Forall (served (Sample.world_with [PInt 600]))
            (resolved (Sample.world_with [PInt 600]) obs_ids ∅ ∅)
       /\ filter is_retrieve (trace (run (Sample.world_with [PInt 600]) ∅ ∅).2)
          = downloads (resolved (Sample.world_with [PInt 600]) obs_ids ∅ ∅)
       /\ files (run (Sample.world_with [PInt 600]) ∅ ∅).2
          = stored (Sample.world_with [PInt 600])
              (dirs (run (Sample.world_with [PInt 600]) ∅ ∅).2)
              (resolved (Sample.world_with [PInt 600]) obs_ids ∅ ∅) ∅.
Proof.
  assert (H : (run (Sample.world_with [PInt 600]) ∅ ∅).1 = Ok tt)
    by (vm_compute; reflexivity).
  split; [exact H|].
  exact (normal_run (Sample.world_with [PInt 600]) ∅ ∅ H).
Defined.

Lemma images_is_a_regular_file_witness :
  let w := Sample.world_with [] in
  let st := set_files (fun _ => {[ str "images" := [] ]}) Sample.two_records in
  let image := default [] (images st !! 0%nat) in
  let u := str "https://static.example/photos/1/original.jpg" in
  images st = image :: drop 1 (images st)
  /\ (str "images" ∉ dirs st)
  /\ is_Some (files st !! str "images")
  /\ wanted_url image = Some u
  /\ exists st',
       image_fetcher w st = (Raise NotADirectoryError, st')
       /\ dirs st' = dirs st /\ files st' = files st
       /\ trace st'
          = trace st
            ++ [Print (str "Images directory already exists, using existing images directory");
                Print (str "Retrieving " ++ fmt_nat (length (images st))
                       ++ str " images");
                UrlRetrieve u (image_name_of image)].
Proof.
  intros w st image u.
  assert (H1 : images st = image :: drop 1 (images st)) by reflexivity.
  assert (H2 : str "images" ∉ dirs st) by apply not_elem_of_empty.
  assert (H3 : is_Some (files st !! str "images")).
  { exists []. apply lookup_singleton_eq. }
  assert (H4 : wanted_url image = Some u) by (vm_compute; reflexivity).
  assert (H5 : is_Some (image_host w u)) by (by eexists).
  assert (H6 : 0 ∉ image_name_of image) by not_in_literal.
  split; [exact H1|]. split; [exact H2|]. split; [exact H3|].
  split; [exact H4|].
  exact (images_is_a_regular_file w st image (drop 1 (images st)) u
           H1 H2 H3 H4 H5 H6 eq_refl).
Defined.
